(** * Shared favorites, media listing, gallery windowing and detail viewer

    A shallow embedding of the gallery application: the Drive listing
    service ([getFiles]), the Firestore favorites service
    ([onFavoritesChange], [toggleFavoriteInFirestore]), the gallery view
    ([useFavorites], filtering and pagination) and the detail view
    (previous/next navigation), followed by the properties the
    specification states about them. *)

From Stdlib Require Import ZArith Lia.
From Stdlib Require QArith Qround.
From Stdlib Require Import Ascii.
From stdpp Require Import base gmap sets list strings pretty.

Local Open Scope string_scope.
Local Open Scope list_scope.
Local Open Scope Z_scope.

(** ** Shared types *)

Module Types.

(** Modelled from the spec: the record types [DriveFile] and [Favorite] of
    [types.ts], a file the sources import but do not contain; the fields are
    the ones the spec's data model lists and the code reads ([id], [name],
    [thumbnailLink], [mimeType]). *)
Record DriveFile := mkDriveFile {
  file_id : string;
  file_name : string;
  thumbnailLink : string;
  mimeType : string
}.

Record Favorite := mkFavorite {
  fav_id : string;
  fav_name : string
}.

(** The settled state of an [async] function: it resolves with a value or
    rejects with the message of the error thrown. *)
Inductive Promise (A : Type) :=
  | Resolved (value : A)
  | Rejected (message : string).
Arguments Resolved {A} value.
Arguments Rejected {A} message.

(** JavaScript truthiness of a [string | undefined] value: [undefined] and
    the empty string are falsy. *)
Definition truthy (s : option string) : bool :=
  match s with
  | Some EmptyString => false
  | Some _ => true
  | None => false
  end.

(** [haystack.includes(needle)] and [s.startsWith(p)]. *)
Definition includes (needle haystack : string) : bool :=
  match String.index 0 needle haystack with
  | Some _ => true
  | None => false
  end.

Definition startsWith (p s : string) : bool := String.prefix p s.

(** The thumbnail-size rewrite [link.replace(/=s\d+/, replacement)]: the
    leftmost [=s] followed by decimal digits is replaced, digits included;
    the replacements in the sources ([=s600], [=s2048], [=s120]) hold no
    [$] pattern. *)
Definition isDigit (c : Ascii.ascii) : bool :=
  (48 <=? Ascii.nat_of_ascii c)%nat && (Ascii.nat_of_ascii c <=? 57)%nat.

Fixpoint skipDigits (s : string) : string :=
  match s with
  | String c rest => if isDigit c then skipDigits rest else s
  | EmptyString => EmptyString
  end.

Definition sizeMarkerAt (s : string) : bool :=
  match s with
  | String c1 (String c2 (String c3 _)) =>
      Ascii.eqb c1 "="%char && Ascii.eqb c2 "s"%char && isDigit c3
  | _ => false
  end.

Definition afterSizeMarker (s : string) : string :=
  match s with
  | String _ (String _ rest) => skipDigits rest
  | _ => EmptyString
  end.

Fixpoint replaceSize (replacement : string) (s : string) : string :=
  match s with
  | EmptyString => EmptyString
  | String c rest =>
      if sizeMarkerAt s then (replacement ++ afterSizeMarker s)%string
      else String c (replaceSize replacement rest)
  end.

End Types.
Import Types.

(** ** services/firebaseService *)

Module FirebaseService.

(** A gallery document [{ favorites: Favorite[] }]; the field can be missing
    from a stored document, which the code covers with [|| []]. *)
Record GalleryDoc := mkGalleryDoc { favorites : option (list Favorite) }.

(** The Firestore handle [db]; it stays [undefined] when initialisation
    throws. *)
Inductive Firestore := FirestoreHandle.

Record Service := mkService {
  db : option Firestore;
  isFirebaseConfigured : bool
}.

(** Module initialisation. [firebaseConfig] is the list of the configuration
    object's values ([Object.values]); [sdk] is what the Firebase SDK calls
    [initializeApp] / [getFirestore] produce, [None] when they throw. *)
Definition initialize (firebaseConfig : list string) (sdk : option Firestore) : Service :=
  if existsb (includes "YOUR_") firebaseConfig
  then {| db := None; isFirebaseConfigured := false |}
  else match sdk with
       | Some handle => {| db := Some handle; isFirebaseConfigured := true |}
       | None => {| db := None; isFirebaseConfigured := false |}
       end.

(** What this client asked of the remote store: document reads served and
    document writes applied. *)
Inductive RemoteOp :=
  | TxGet (folderId : string)
  | TxSet (folderId : string) (data : GalleryDoc).

(** The world outside the component: the [galleries] collection keyed by
    folder id, the trace of this client's remote operations, the snapshot
    listeners attached by this client, and the console. *)
Record World := mkWorld {
  docs : gmap string GalleryDoc;
  ops : list RemoteOp;
  listeners : list (nat * string);
  nextListener : nat;
  console : list string
}.

Definition setDoc (folderId : string) (data : GalleryDoc) (w : World) : World :=
  {| docs := <[folderId := data]> (docs w); ops := ops w;
     listeners := listeners w; nextListener := nextListener w;
     console := console w |}.

Definition logOp (op : RemoteOp) (w : World) : World :=
  {| docs := docs w; ops := ops w ++ [op];
     listeners := listeners w; nextListener := nextListener w;
     console := console w |}.

Definition consoleError (message : string) (w : World) : World :=
  {| docs := docs w; ops := ops w;
     listeners := listeners w; nextListener := nextListener w;
     console := console w ++ [message] |}.

(** [onSnapshot(docRef, next)]: attaches a listener and hands back the
    function that detaches it. *)
Definition detach (lid : nat) (w : World) : World :=
  {| docs := docs w; ops := ops w;
     listeners := List.filter (fun l => negb (Nat.eqb (fst l) lid)) (listeners w);
     nextListener := nextListener w;
     console := console w |}.

Definition onSnapshot (folderId : string) (w : World) : (World -> World) * World :=
  (detach (nextListener w),
   {| docs := docs w; ops := ops w;
      listeners := listeners w ++ [(nextListener w, folderId)];
      nextListener := S (nextListener w);
      console := console w |}).

(** The value the snapshot listener passes to the callback. *)
Definition snapshotFavorites (docSnap : option GalleryDoc) : list Favorite :=
  match docSnap with
  | Some data =>
      match favorites data with
      | Some favs => favs
      | None => []
      end
  | None => []
  end.

Definition onFavoritesChange (svc : Service) (folderId : string) (w : World)
  : (World -> World) * World :=
  match db svc with
  | None => (fun w' => w', w)
  | Some _ => onSnapshot folderId w
  end.

(** The store's transaction primitive [runTransaction(db, updateFunction)],
    which belongs to the Firestore SDK and not to the repository; it behaves
    here as the specification describes the shared document store:
    read-modify-write with retry on write conflict, within a retry budget.
    Each attempt reads the document, runs the update function on the
    snapshot and tries to commit the write it produced. [others] says, per
    attempt, whether another session committed a document in between
    ([Some d]): then the attempt is void and the primitive retries, until
    [attempts] are used up and it rejects. *)
Inductive TxResult :=
  | Committed
  | Aborted (message : string).

Fixpoint runTransaction (attempts : nat) (folderId : string)
    (updateFunction : option GalleryDoc -> GalleryDoc)
    (others : list (option GalleryDoc)) (w : World) : TxResult * World :=
  match attempts with
  | O => (Aborted "transaction failed: too much contention", w)
  | S n =>
      let docSnap := docs w !! folderId in
      let pending := updateFunction docSnap in
      let w1 := logOp (TxGet folderId) w in
      match others with
      | Some theirs :: rest =>
          runTransaction n folderId updateFunction rest
            {| docs := <[folderId := theirs]> (docs w1); ops := ops w1;
               listeners := listeners w1; nextListener := nextListener w1;
               console := console w1 |}
      | None :: _ | [] =>
          (Committed, logOp (TxSet folderId pending) (setDoc folderId pending w1))
      end
  end.

(** The body of the transaction in [toggleFavoriteInFirestore]. *)
Definition currentFavorites (docSnap : option GalleryDoc) : list Favorite :=
  match docSnap with
  | Some data =>
      match favorites data with
      | Some favs => favs
      | None => []
      end
  | None => []
  end.

Definition isCurrentlyFavorite (current : list Favorite) (file : DriveFile) : bool :=
  existsb (fun fav => String.eqb (fav_id fav) (file_id file)) current.

Definition newFavorites (current : list Favorite) (file : DriveFile) : list Favorite :=
  if isCurrentlyFavorite current file
  then List.filter (fun fav => negb (String.eqb (fav_id fav) (file_id file))) current
  else current ++ [{| fav_id := file_id file; fav_name := file_name file |}].

Definition toggleUpdate (file : DriveFile) (docSnap : option GalleryDoc) : GalleryDoc :=
  {| favorites := Some (newFavorites (currentFavorites docSnap) file) |}.

(** [toggleFavoriteInFirestore]: nothing without [db]; otherwise the
    transaction inside [try], whose [catch] logs and does not rethrow. *)
Definition toggleFavoriteInFirestore (maxAttempts : nat) (svc : Service)
    (folderId : string) (file : DriveFile)
    (others : list (option GalleryDoc)) (w : World) : Promise unit * World :=
  match db svc with
  | None => (Resolved tt, w)
  | Some _ =>
      match runTransaction maxAttempts folderId (toggleUpdate file) others w with
      | (Committed, w') => (Resolved tt, w')
      | (Aborted message, w') =>
          (Resolved tt,
           consoleError ("Error updating favorites in Firestore transaction: " ++ message)%string w')
      end
  end.

End FirebaseService.

(** ** services/driveService *)

Module DriveService.

(** The JSON body of a successful listing response. *)
Record FilesPage := mkFilesPage {
  files : option (list DriveFile);
  nextPageToken : option string
}.

(** What one [fetch] of the listing URL can come to. *)
Inductive Response :=
  | FetchRejected (message : string)
      (* the request itself fails *)
  | NotOk (statusText : string) (errorMessage : option string)
      (* [!response.ok]; [errorMessage] is [errorData.error?.message] when
         the body parses as JSON and has one *)
  | OkNotJson (message : string)
      (* [response.ok], but [response.json()] rejects *)
  | Ok (data : FilesPage).

(** The listing provider: the response to a request for a folder with an
    optional [pageToken] parameter. *)
Definition Provider := string -> option string -> Response.

Definition errorMsg (statusText : string) (errorMessage : option string) : string :=
  if truthy errorMessage
  then match errorMessage with
       | Some m => m
       | None => ("Error fetching files: " ++ statusText)%string
       end
  else ("Error fetching files: " ++ statusText)%string.

(** The [do ... while (pageToken)] loop. [requests] records the [pageToken]
    parameter of every request sent; [fuel] bounds the number of
    iterations, [None] meaning the bound was hit. *)
Fixpoint fetchPages (fuel : nat) (provider : Provider) (folderId : string)
    (pageToken : option string) (allFiles : list DriveFile)
    (requests : list (option string))
  : option (Promise (list DriveFile) * list (option string)) :=
  match fuel with
  | O => None
  | S n =>
      let param := if truthy pageToken then pageToken else None in
      let requests' := (requests ++ [param])%list in
      match provider folderId param with
      | FetchRejected message => Some (Rejected message, requests')
      | NotOk statusText errorMessage =>
          Some (Rejected (errorMsg statusText errorMessage), requests')
      | OkNotJson message => Some (Rejected message, requests')
      | Ok data =>
          let allFiles' :=
            match files data with
            | Some fs => (allFiles ++ fs)%list
            | None => allFiles
            end in
          if truthy (nextPageToken data)
          then fetchPages n provider folderId (nextPageToken data) allFiles' requests'
          else Some (Resolved allFiles', requests')
      end
  end.

(** [API_KEY] is the constant [GOOGLE_DRIVE_API_KEY] of [config.ts], which
    the sources import but do not contain: it is a parameter here. *)
Definition apiKeyMissing (API_KEY : string) : bool :=
  negb (truthy (Some API_KEY)) || startsWith "YOUR_" API_KEY.

Definition getFiles (API_KEY : string) (provider : Provider) (fuel : nat)
    (folderId : string)
  : option (Promise (list DriveFile) * list (option string)) :=
  if apiKeyMissing API_KEY
  then Some (Rejected "API key is not configured. Please set the GOOGLE_DRIVE_API_KEY in config.ts.", [])
  else fetchPages fuel provider folderId None [] [].

End DriveService.

(** ** components/GalleryView *)

Module GalleryView.

Import FirebaseService.

Definition ITEMS_PER_PAGE : Z := 50.

(** The state of the component: the route parameter and the [useState]
    cells. *)
Record State := mkState {
  folderId : option string;
  allItems : list DriveFile;
  favorites : list Favorite;
  isLoading : bool;
  error : option string;
  isFavoritesView : bool;
  currentPage : Z;
  detailViewIndex : option Z
}.

Definition setFavorites (favs : list Favorite) (s : State) : State :=
  {| folderId := folderId s; allItems := allItems s; favorites := favs;
     isLoading := isLoading s; error := error s;
     isFavoritesView := isFavoritesView s; currentPage := currentPage s;
     detailViewIndex := detailViewIndex s |}.

Definition setCurrentPage (p : Z) (s : State) : State :=
  {| folderId := folderId s; allItems := allItems s; favorites := favorites s;
     isLoading := isLoading s; error := error s;
     isFavoritesView := isFavoritesView s; currentPage := p;
     detailViewIndex := detailViewIndex s |}.

Definition setIsFavoritesView (v : bool) (s : State) : State :=
  {| folderId := folderId s; allItems := allItems s; favorites := favorites s;
     isLoading := isLoading s; error := error s;
     isFavoritesView := v; currentPage := currentPage s;
     detailViewIndex := detailViewIndex s |}.

(** *** The [useFavorites] hook *)

(** The subscription effect; its result is the cleanup function. *)
Definition subscribeEffect (svc : Service) (s : State) (w : World)
  : (World -> World) * World :=
  match folderId s with
  | Some folder =>
      if negb (truthy (Some folder)) || negb (isFirebaseConfigured svc)
      then (fun w' => w', w)
      else onFavoritesChange svc folder w
  | None => (fun w' => w', w)
  end.

(** The listener's callback, run when a snapshot of the folder's document
    is delivered. *)
Definition snapshotDelivered (folder : string) (w : World) (s : State) : State :=
  setFavorites (snapshotFavorites (docs w !! folder)) s.

Definition isFavorited (favs : list Favorite) (id : string) : bool :=
  existsb (fun fav => String.eqb (fav_id fav) id) favs.

(** [toggleFavorite(id)]: the component state is part of the result to make
    explicit that no state setter is called. *)
Definition toggleFavorite (maxAttempts : nat) (svc : Service) (s : State)
    (id : string) (others : list (option GalleryDoc)) (w : World)
  : Promise unit * State * World :=
  match folderId s with
  | Some folder =>
      if negb (truthy (Some folder)) || negb (isFirebaseConfigured svc)
      then (Resolved tt, s, w)
      else
        match List.find (fun f => String.eqb (file_id f) id) (allItems s) with
        | None => (Resolved tt, s, w)
        | Some file =>
            let '(p, w') :=
              toggleFavoriteInFirestore maxAttempts svc folder file others w in
            (p, s, w')
        end
  | None => (Resolved tt, s, w)
  end.

(** *** Filtering and pagination *)

Definition filteredItems (s : State) : list DriveFile :=
  if isFavoritesView s
  then List.filter (fun item => isFavorited (favorites s) (file_id item)) (allItems s)
  else allItems s.

(** [Math.ceil(filteredItems.length / ITEMS_PER_PAGE)]. *)
Definition totalPages (s : State) : Z :=
  Qround.Qceiling
    (QArith_base.Qdiv (QArith_base.inject_Z (Z.of_nat (length (filteredItems s))))
                      (QArith_base.inject_Z ITEMS_PER_PAGE)).


(** [Array.prototype.slice(start, end)]. *)
Definition slice {A : Type} (l : list A) (start final : Z) : list A :=
  let len := Z.of_nat (length l) in
  let k := if start <? 0 then Z.max (len + start) 0 else Z.min start len in
  let e := if final <? 0 then Z.max (len + final) 0 else Z.min final len in
  take (Z.to_nat (e - k)) (drop (Z.to_nat k) l).

Definition visibleItems (s : State) : list DriveFile :=
  let start := (currentPage s - 1) * ITEMS_PER_PAGE in
  slice (filteredItems s) start (start + ITEMS_PER_PAGE).

(** *** Loading the listing *)

Definition setAllItems (items : list DriveFile) (s : State) : State :=
  {| folderId := folderId s; allItems := items; favorites := favorites s;
     isLoading := isLoading s; error := error s;
     isFavoritesView := isFavoritesView s; currentPage := currentPage s;
     detailViewIndex := detailViewIndex s |}.

Definition setIsLoading (v : bool) (s : State) : State :=
  {| folderId := folderId s; allItems := allItems s; favorites := favorites s;
     isLoading := v; error := error s;
     isFavoritesView := isFavoritesView s; currentPage := currentPage s;
     detailViewIndex := detailViewIndex s |}.

Definition setError (e : option string) (s : State) : State :=
  {| folderId := folderId s; allItems := allItems s; favorites := favorites s;
     isLoading := isLoading s; error := e;
     isFavoritesView := isFavoritesView s; currentPage := currentPage s;
     detailViewIndex := detailViewIndex s |}.

Definition setDetailViewIndex (i : option Z) (s : State) : State :=
  {| folderId := folderId s; allItems := allItems s; favorites := favorites s;
     isLoading := isLoading s; error := error s;
     isFavoritesView := isFavoritesView s; currentPage := currentPage s;
     detailViewIndex := i |}.

(** [fetchGalleryData]: nothing without a folder id; otherwise the listing
    is awaited inside [try], its files stored on success, the error's
    message on failure, and [isLoading] lowered in [finally]. The requests
    sent are part of the result; [None] when the listing uses up [fuel]. *)
Definition fetchGalleryData (API_KEY : string) (provider : DriveService.Provider)
    (fuel : nat) (s : State) : option (State * list (option string)) :=
  if truthy (folderId s)
  then
    match folderId s with
    | Some folder =>
        let s1 := setError None (setIsLoading true s) in
        match DriveService.getFiles API_KEY provider fuel folder with
        | Some (Resolved files, requests) =>
            Some (setIsLoading false (setAllItems files s1), requests)
        | Some (Rejected message, requests) =>
            Some (setIsLoading false (setError (Some message) s1), requests)
        | None => None
        end
    | None => Some (s, [])
    end
  else Some (s, []).

(** *** What is rendered *)


(** The pagination bar: the page shown, the number of pages, and whether
    the Previous and Next buttons are disabled. *)
Record Pagination := mkPagination {
  page : Z;
  pages : Z;
  previousDisabled : bool;
  nextDisabled : bool
}.



Definition renderPagination (s : State) : option Pagination :=
  if totalPages s >? 1
  then Some {| page := currentPage s; pages := totalPages s;
               previousDisabled := currentPage s =? 1;
               nextDisabled := currentPage s =? totalPages s |}
  else None.


(** *** Events *)

(** A click reaches a button only when it is rendered and enabled. *)
Definition clickPrevious (s : State) : State :=
  match renderPagination s with
  | Some bar =>
      if previousDisabled bar then s else setCurrentPage (currentPage s - 1) s
  | None => s
  end.

Definition clickNext (s : State) : State :=
  match renderPagination s with
  | Some bar =>
      if nextDisabled bar then s else setCurrentPage (currentPage s + 1) s
  | None => s
  end.

Definition clickFavoritesView (svc : Service) (s : State) : State :=
  if isFirebaseConfigured svc
  then setIsFavoritesView (negb (isFavoritesView s)) s
  else s.

(** [Array.prototype.findIndex]. *)
Fixpoint findIndexFrom {A : Type} (f : A -> bool) (l : list A) (i : Z) : Z :=
  match l with
  | [] => -1
  | x :: rest => if f x then i else findIndexFrom f rest (i + 1)
  end.

Definition findIndex {A : Type} (f : A -> bool) (l : list A) : Z :=
  findIndexFrom f l 0.

(** [handleOpenDetailView(itemIndex)]; [None] is the [TypeError] of reading
    [id] from an undefined [visibleItems[itemIndex]]. *)
Definition handleOpenDetailView (itemIndex : nat) (s : State) : option State :=
  match visibleItems s !! itemIndex with
  | Some clicked =>
      Some (setDetailViewIndex
              (Some (findIndex
                       (fun item => String.eqb (file_id item) (file_id clicked))
                       (filteredItems s)))
              s)
  | None => None
  end.

(** What happens to the component between two renders: a button click, a
    snapshot of the favorites, or the listing arriving. *)
Inductive Event :=
  | ClickPrevious
  | ClickNext
  | ClickFavoritesView
  | ClickItem (itemIndex : nat)
  | CloseDetailView
  | FavoritesChanged (favs : list Favorite)
  | FilesLoaded (files : list DriveFile).

Definition handle (svc : Service) (e : Event) (s : State) : State :=
  match e with
  | ClickPrevious => clickPrevious s
  | ClickNext => clickNext s
  | ClickFavoritesView => clickFavoritesView svc s
  | ClickItem itemIndex =>
      match handleOpenDetailView itemIndex s with
      | Some s' => s'
      | None => s
      end
  | CloseDetailView => setDetailViewIndex None s
  | FavoritesChanged favs => setFavorites favs s
  | FilesLoaded files => setAllItems files s
  end.


(** *** Export *)

Inductive Export :=
  | NothingToExport (toast : string)
  | Download (fileName content toast : string).

(** [exportFavorites]; [decodedClientName] is what
    [decodeURIComponent(clientName || 'selection')] returns. *)
Definition exportFavorites (decodedClientName : string) (s : State) : Export :=
  if (length (favorites s) =? 0)%nat
  then NothingToExport "No favorites to export."
  else Download
         ("favorites_" ++ decodedClientName ++ ".txt")%string
         (String.concat (String (Ascii.ascii_of_nat 10) EmptyString)
            (List.map fav_name (favorites s)))
         "Favorites list exported.".

(** The [data-src] of a grid item. *)
Definition gridSrc (file : DriveFile) : string :=
  replaceSize "=s600" (thumbnailLink file).

End GalleryView.

(** ** components/DetailView *)

Module DetailView.

Record State := mkState {
  currentIndex : Z;
  isMediaLoading : bool
}.

(** [items[i]] for a JavaScript number [i]. *)
Definition itemAt (items : list DriveFile) (i : Z) : option DriveFile :=
  if i <? 0 then None else items !! Z.to_nat i.

(** The updater functions [handlePrev] and [handleNext] pass to
    [setCurrentIndex]; [len] is [items.length]. *)
Definition prevUpdater (len i : Z) : Z := if i >? 0 then i - 1 else len - 1.
Definition nextUpdater (len i : Z) : Z := if i <? len - 1 then i + 1 else 0.

(** [setCurrentIndex]: a changed index re-runs the effect that raises
    [isMediaLoading]. *)
Definition setCurrentIndex (i : Z) (s : State) : State :=
  if i =? currentIndex s then s
  else {| currentIndex := i; isMediaLoading := true |}.

Definition handlePrev (items : list DriveFile) (s : State) : State :=
  setCurrentIndex (prevUpdater (Z.of_nat (length items)) (currentIndex s)) s.

Definition handleNext (items : list DriveFile) (s : State) : State :=
  setCurrentIndex (nextUpdater (Z.of_nat (length items)) (currentIndex s)) s.

(** What the user can do while the viewer is open. *)
Inductive Event :=
  | KeyDown (key : string)
  | ClickBack
  | ClickPrev
  | ClickNext
  | ClickFavorite
  | ClickThumbnail (index : nat).

(** The props the viewer calls back. *)
Inductive Callback :=
  | OnClose
  | OnToggleFavorite (id : string).

Definition toggleCurrent (items : list DriveFile) (s : State) : list Callback :=
  match itemAt items (currentIndex s) with
  | Some item => [OnToggleFavorite (file_id item)]
  | None => []
  end.

Definition handleKeyDown (items : list DriveFile) (key : string) (s : State)
  : State * list Callback :=
  if String.eqb key "Escape" then (s, [OnClose])
  else if String.eqb key "ArrowLeft" then (handlePrev items s, [])
  else if String.eqb key "ArrowRight" then (handleNext items s, [])
  else if String.eqb key " " then (s, toggleCurrent items s)
  else (s, []).

Definition handle (items : list DriveFile) (e : Event) (s : State)
  : State * list Callback :=
  match e with
  | KeyDown key => handleKeyDown items key s
  | ClickBack => (s, [OnClose])
  | ClickPrev => (handlePrev items s, [])
  | ClickNext => (handleNext items s, [])
  | ClickFavorite => (s, toggleCurrent items s)
  | ClickThumbnail index => (setCurrentIndex (Z.of_nat index) s, [])
  end.

(** *** The viewed item and the preloading effect *)

Definition currentItem (items : list DriveFile) (s : State) : option DriveFile :=
  itemAt items (currentIndex s).

(** [(currentIndex + 1) % items.length] and
    [(currentIndex - 1 + items.length) % items.length]; with no items the
    remainder is [NaN], which indexes nothing. *)
Definition nextIndex (len i : Z) : option Z :=
  if len =? 0 then None else Some (Z.rem (i + 1) len).

Definition prevIndex (len i : Z) : option Z :=
  if len =? 0 then None else Some (Z.rem (i - 1 + len) len).

Definition largeSrc (item : DriveFile) : string :=
  replaceSize "=s2048" (thumbnailLink item).

(** The image sources the effect starts loading. *)
Definition preload (items : list DriveFile) (s : State) : list string :=
  let len := Z.of_nat (length items) in
  List.concat
    (List.map
       (fun index =>
          match index with
          | Some i =>
              match itemAt items i with
              | Some item =>
                  if startsWith "image/" (mimeType item) then [largeSrc item] else []
              | None => []
              end
          | None => []
          end)
       [nextIndex len (currentIndex s); prevIndex len (currentIndex s)]).

Definition highResUrl (item : DriveFile) : string :=
  if includes "video" (mimeType item)
  then ("https://drive.google.com/uc?export=view&id=" ++ file_id item)%string
  else largeSrc item.

Definition thumbnailSrc (item : DriveFile) : string :=
  replaceSize "=s120" (thumbnailLink item).

End DetailView.

(** ** components/CreatorView *)

Module CreatorView.

(** The character class [[a-zA-Z0-9_-]]. *)
Definition isIdChar (c : ascii) : bool :=
  let n := nat_of_ascii c in
  ((97 <=? n) && (n <=? 122) || (65 <=? n) && (n <=? 90)
   || (48 <=? n) && (n <=? 57) || (n =? 95) || (n =? 45))%nat.

Fixpoint takeIdChars (s : string) : string :=
  match s with
  | String c rest => if isIdChar c then String c (takeIdChars rest) else EmptyString
  | EmptyString => EmptyString
  end.

Fixpoint dropChars (n : nat) (s : string) : string :=
  match n, s with
  | S m, String _ rest => dropChars m rest
  | _, _ => s
  end.

(** Capture group 1 of [folderLink.match(/folders\/([a-zA-Z0-9_-]+)/)]:
    at the leftmost position where [folders/] is followed by a character of
    the class, the longest run of such characters. *)
Fixpoint matchFolderId (s : string) : option string :=
  match s with
  | EmptyString => None
  | String _ rest =>
      if String.prefix "folders/" s
      then match takeIdChars (dropChars 8 s) with
           | EmptyString => matchFolderId rest
           | String c id => Some (String c id)
           end
      else matchFolderId rest
  end.

Inductive Outcome :=
  | Toast (message : string)
  | GalleryLink (hash : string).

(** [handleGenerateLink]; [trim] and [encodeURIComponent] are the built-in
    string functions, taken as parameters. *)
Definition handleGenerateLink (trim encodeURIComponent : string -> string)
    (clientName folderLink : string) : Outcome :=
  if negb (truthy (Some (trim clientName))) || negb (truthy (Some (trim folderLink)))
  then Toast "Please fill out both fields."
  else match matchFolderId folderLink with
       | Some folderId =>
           if truthy (Some folderId)
           then GalleryLink ("/" ++ folderId ++ "/" ++ encodeURIComponent clientName)%string
           else Toast "Please enter a valid Google Drive folder link."
       | None => Toast "Please enter a valid Google Drive folder link."
       end.

End CreatorView.

(** ** sw.js *)

Module ServiceWorker.

Definition CACHE_NAME : string := "zelect-v1".
Definition DYNAMIC_CACHE_NAME : string := "zelect-dynamic-v1".

(** A request for an http(s) URL as the handler sees it: [hostname] is
    what [new URL(request.url).hostname] gives. *)
Record Request := mkRequest {
  method : string;
  url : string;
  hostname : string
}.

Record Response := mkResponse {
  status : Z;
  body : string
}.

(** The browser's cache storage, which belongs to the platform and not to
    the repository: named caches in creation order, each mapping a URL to
    the response stored for it (responses are matched by URL alone). *)
Definition CacheStorage := list (string * gmap string Response).

(** [caches.match(request)]: the first cache, in creation order, holding a
    response for the URL; requests other than [GET] match nothing. *)
Fixpoint cachesMatch (request : Request) (caches : CacheStorage) : option Response :=
  match caches with
  | [] => None
  | (_, cache) :: rest =>
      if String.eqb (method request) "GET"
      then match cache !! url request with
           | Some response => Some response
           | None => cachesMatch request rest
           end
      else None
  end.

(** [caches.open(name).then(cache => cache.put(request, response))]: the
    cache is created, last, when there is none of that name. *)
Fixpoint cachePut (name : string) (key : string) (response : Response)
    (caches : CacheStorage) : CacheStorage :=
  match caches with
  | [] => [(name, {[ key := response ]})]
  | (n, cache) :: rest =>
      if String.eqb n name
      then (n, <[ key := response ]> cache) :: rest
      else (n, cache) :: cachePut name key response rest
  end.

(** The [activate] handler: which caches it deletes, and what is left. *)
Definition isStale (cacheName : string) : bool :=
  startsWith "zelect-" cacheName
  && negb (String.eqb cacheName CACHE_NAME)
  && negb (String.eqb cacheName DYNAMIC_CACHE_NAME).

Definition onActivate (caches : CacheStorage) : CacheStorage :=
  List.filter (fun entry => negb (isStale (fst entry))) caches.

(** The outcome of one [fetch] event: the response handed to
    [respondWith] ([None]: none, the page sees a network error), the cache
    storage afterwards, and the requests sent to the network. *)
Record Handled := mkHandled {
  response : option Response;
  storage : CacheStorage;
  sent : list Request
}.

(** The [fetch] handler; [network] is what [fetch(request)] resolves with,
    [None] when it rejects. *)
Definition onFetch (network : Request -> option Response) (request : Request)
    (caches : CacheStorage) : Handled :=
  if includes "googleapis.com" (hostname request)
  then {| response := network request; storage := caches; sent := [request] |}
  else
    match cachesMatch request caches with
    | Some cachedResponse =>
        {| response := Some cachedResponse; storage := caches; sent := [] |}
    | None =>
        match network request with
        | Some networkResponse =>
            if String.eqb (method request) "GET" && (status networkResponse =? 200)
            then {| response := Some networkResponse;
                    storage := cachePut DYNAMIC_CACHE_NAME (url request)
                                 networkResponse caches;
                    sent := [request] |}
            else {| response := Some networkResponse; storage := caches;
                    sent := [request] |}
        | None => {| response := None; storage := caches; sent := [request] |}
        end
    end.

End ServiceWorker.

(** ** App *)

Module App.

(** The toast state and the number of [setTimeout] callbacks still to
    run. *)
Record State := mkState {
  message : string;
  show : bool;
  timers : nat
}.

Definition initial : State :=
  {| message := EmptyString; show := false; timers := O |}.

Definition showToast (text : string) (s : State) : State :=
  {| message := text; show := true; timers := S (timers s) |}.

(** A timer running out: [setToast(t => ({ ...t, show: false }))]. *)
Definition timeout (s : State) : State :=
  match timers s with
  | O => s
  | S n => {| message := message s; show := false; timers := n |}
  end.

Inductive Event :=
  | ShowToast (text : string)
  | Timeout.

Definition handle (s : State) (e : Event) : State :=
  match e with
  | ShowToast text => showToast text s
  | Timeout => timeout s
  end.

End App.

(** ** Notions used to state the properties *)

Module Props.

Import FirebaseService.

(** The number of attempts a transaction loses to other sessions before one
    of its attempts can commit. *)
Fixpoint contention (others : list (option GalleryDoc)) : nat :=
  match others with
  | Some _ :: rest => S (contention rest)
  | _ => O
  end.

(** The collection after the writes other sessions commit while a
    transaction on [folderId] uses up to [attempts] attempts. *)
Fixpoint theirWrites (attempts : nat) (folderId : string)
    (others : list (option GalleryDoc)) (d : gmap string GalleryDoc)
  : gmap string GalleryDoc :=
  match attempts, others with
  | S n, Some theirs :: rest => theirWrites n folderId rest (<[folderId := theirs]> d)
  | _, _ => d
  end.

(** The reads a transaction issues in [k] attempts. *)
Definition reads (k : nat) (folderId : string) : list RemoteOp :=
  replicate k (TxGet folderId).

(** The favorites of a folder as a set of ids. *)
Definition favoriteIdsOf (favs : list Favorite) : gset string :=
  list_to_set (fav_id <$> favs).

Definition favoriteIds (docSnap : option GalleryDoc) : gset string :=
  favoriteIdsOf (currentFavorites docSnap).

(** The favorites sequence the collection holds for a folder: the
    [favorites] field of the folder's document, and no favorites where the
    document or the field is missing. It is read off the collection itself,
    not through the service. *)
Definition storedFavorites (d : gmap string GalleryDoc) (folderId : string)
  : list Favorite :=
  default [] (d !! folderId ≫= favorites).

Definition storedIds (d : gmap string GalleryDoc) (folderId : string)
  : gset string :=
  favoriteIdsOf (storedFavorites d folderId).

(** No stored favorites sequence has two entries with the same id. *)
Definition docNoDuplicates (data : GalleryDoc) : Prop :=
  NoDup (fav_id <$> currentFavorites (Some data)).

Definition noDuplicates (d : gmap string GalleryDoc) : Prop :=
  ∀ folderId data, d !! folderId = Some data → docNoDuplicates data.

(** Every document is absent or holds no favorites. *)
Definition noFavorites (d : gmap string GalleryDoc) : Prop :=
  ∀ folderId, currentFavorites (d !! folderId) = [].

(** One call of [toggleFavoriteInFirestore] in a run of calls. *)
Record ToggleCall := mkToggleCall {
  call_folder : string;
  call_file : DriveFile;
  call_others : list (option GalleryDoc)
}.

Definition runToggles (maxAttempts : nat) (svc : Service)
    (calls : list ToggleCall) (w : World) : World :=
  foldl (fun w c =>
           snd (toggleFavoriteInFirestore maxAttempts svc
                  (call_folder c) (call_file c) (call_others c) w))
        w calls.

(** The writes of the other sessions keep to the same discipline. *)
Definition othersNoDuplicates (others : list (option GalleryDoc)) : Prop :=
  ∀ theirs, Some theirs ∈ others → docNoDuplicates theirs.

(** The entry [toggleFavoriteInFirestore] appends for a file. *)
Definition entryOf (file : DriveFile) : Favorite :=
  {| fav_id := file_id file; fav_name := file_name file |}.

Definition otherThan (id : string) (fav : Favorite) : bool :=
  negb (String.eqb (fav_id fav) id).

(** *** Media listing *)

Import DriveService.

Definition pageFiles (page : FilesPage) : list DriveFile :=
  match files page with
  | Some fs => fs
  | None => []
  end.

(** The provider holds the pages [pages] of a folder, from the request with
    parameter [param] on: every page but the last carries a continuation
    token (a non-empty string, the loop testing the token's truthiness),
    which is the parameter that yields the next page; the last carries
    none. *)
Inductive HoldsPages (provider : Provider) (folderId : string)
  : option string → list FilesPage → Prop :=
  | holds_last param page :
      provider folderId param = Ok page →
      truthy (nextPageToken page) = false →
      HoldsPages provider folderId param [page]
  | holds_more param page pages :
      provider folderId param = Ok page →
      truthy (nextPageToken page) = true →
      HoldsPages provider folderId (nextPageToken page) pages →
      HoldsPages provider folderId param (page :: pages).

(** The error a failed page request throws. *)
Definition thrownBy (r : Response) : option string :=
  match r with
  | FetchRejected message => Some message
  | NotOk statusText errorMessage => Some (errorMsg statusText errorMessage)
  | OkNotJson message => Some message
  | Ok _ => None
  end.

(** The provider serves the pages [fetched], each with a continuation
    token, and fails the request after them with [message]. *)
Inductive FailsAfter (provider : Provider) (folderId : string)
  : option string → list FilesPage → string → Prop :=
  | fails_now param message :
      thrownBy (provider folderId param) = Some message →
      FailsAfter provider folderId param [] message
  | fails_later param page fetched message :
      provider folderId param = Ok page →
      truthy (nextPageToken page) = true →
      FailsAfter provider folderId (nextPageToken page) fetched message →
      FailsAfter provider folderId param (page :: fetched) message.

(** The continuation tokens of all pages but the last. *)
Fixpoint continuations (pages : list FilesPage) : list (option string) :=
  match pages with
  | [] => []
  | page :: rest =>
      match rest with
      | [] => []
      | _ :: _ => nextPageToken page :: continuations rest
      end
  end.

(** The [pageToken] parameter sent for a token held by the loop. *)
Definition paramOf (pageToken : option string) : option string :=
  if truthy pageToken then pageToken else None.

(** The ids of the listed items, as a set. *)
Definition itemIds (items : list DriveFile) : gset string :=
  list_to_set (file_id <$> items).

(** *** Gallery view *)


(** Reading an exported file back: the text split at every [sep]. *)
Fixpoint splitOn (sep : ascii) (s : string) : list string :=
  match s with
  | EmptyString => [EmptyString]
  | String c rest =>
      if Ascii.eqb c sep then EmptyString :: splitOn sep rest
      else match splitOn sep rest with
           | line :: lines => String c line :: lines
           | [] => [String c EmptyString]
           end
  end.

Fixpoint freeOf (sep : ascii) (s : string) : bool :=
  match s with
  | EmptyString => true
  | String c rest => negb (Ascii.eqb c sep) && freeOf sep rest
  end.

Definition newline : ascii := ascii_of_nat 10.

(** *** Detail view *)

(** A thumbnail is rendered for every item, and for nothing else. *)
Definition thumbnailExists (items : list DriveFile) (e : DetailView.Event) : Prop :=
  match e with
  | DetailView.ClickThumbnail index => (index < length items)%nat
  | _ => True
  end.

(** The detail view as the gallery mounts it (the [DetailView] element of
    the gallery's render): its items are the gallery's [filteredItems],
    [onClose] clears [detailViewIndex] and [onToggleFavorite] is the hook's
    [toggleFavorite]. *)
Record Session := mkSession {
  galleryView : GalleryView.State;
  detailView : DetailView.State;
  world : World
}.

(** What happens while the viewer is open: an event in the viewer (with the
    writes of other sessions during the transaction it may start), or a
    favorites snapshot reaching the gallery. *)
Inductive SessionEvent :=
  | InViewer (e : DetailView.Event) (others : list (option GalleryDoc))
  | FavoritesSnapshot (favs : list Favorite).

Definition callBack (maxAttempts : nat) (svc : Service)
    (others : list (option GalleryDoc))
    (gw : GalleryView.State * World) (c : DetailView.Callback)
  : GalleryView.State * World :=
  match c with
  | DetailView.OnClose => (GalleryView.setDetailViewIndex None (fst gw), snd gw)
  | DetailView.OnToggleFavorite id =>
      let result :=
        GalleryView.toggleFavorite maxAttempts svc (fst gw) id others (snd gw) in
      (snd (fst result), snd result)
  end.

(** A key press reaches the listener whenever the viewer is mounted; a click
    needs its button or thumbnail, which are rendered only with a current
    item. *)
Definition reaches (items : list DriveFile) (v : DetailView.State)
    (e : DetailView.Event) : bool :=
  match e with
  | DetailView.KeyDown _ => true
  | DetailView.ClickThumbnail index =>
      match DetailView.currentItem items v with
      | Some _ => (index <? length items)%nat
      | None => false
      end
  | _ =>
      match DetailView.currentItem items v with
      | Some _ => true
      | None => false
      end
  end.

Definition sessionStep (maxAttempts : nat) (svc : Service)
    (m : Session) (ev : SessionEvent) : Session :=
  match ev with
  | InViewer e others =>
      let items := GalleryView.filteredItems (galleryView m) in
      match GalleryView.detailViewIndex (galleryView m) with
      | Some _ =>
          if reaches items (detailView m) e
          then
            let handled := DetailView.handle items e (detailView m) in
            let gw :=
              foldl (callBack maxAttempts svc others) (galleryView m, world m)
                (snd handled) in
            {| galleryView := fst gw; detailView := fst handled;
               world := snd gw |}
          else m
      | None => m
      end
  | FavoritesSnapshot favs =>
      {| galleryView := GalleryView.setFavorites favs (galleryView m);
         detailView := detailView m; world := world m |}
  end.

(** A string of decimal digits. *)
Fixpoint allDigits (s : string) : bool :=
  match s with
  | EmptyString => true
  | String c rest => isDigit c && allDigits rest
  end.

Fixpoint hasChar (c : ascii) (s : string) : bool :=
  match s with
  | EmptyString => false
  | String c' rest => Ascii.eqb c' c || hasChar c rest
  end.

Definition firstIsDigit (s : string) : bool :=
  match s with
  | String c _ => isDigit c
  | EmptyString => false
  end.

(** *** Creator view *)

Fixpoint allIdChars (s : string) : bool :=
  match s with
  | EmptyString => true
  | String c rest => CreatorView.isIdChar c && allIdChars rest
  end.

Definition firstIsIdChar (s : string) : bool :=
  match s with
  | String c _ => CreatorView.isIdChar c
  | EmptyString => false
  end.

(** *** Service worker *)

(** The cache of a given name, when the storage has one. *)
Fixpoint cacheNamed (name : string) (caches : ServiceWorker.CacheStorage)
  : option (gmap string ServiceWorker.Response) :=
  match caches with
  | [] => None
  | (n, cache) :: rest =>
      if String.eqb n name then Some cache else cacheNamed name rest
  end.

(** Every response held by the dynamic cache has status 200. *)
Definition dynamicHoldsOk (caches : ServiceWorker.CacheStorage) : Prop :=
  ∀ cache key r,
    cacheNamed ServiceWorker.DYNAMIC_CACHE_NAME caches = Some cache →
    cache !! key = Some r →
    ServiceWorker.status r = 200.

(** A run of [fetch] events, each with what the network would answer. *)
Definition runFetches
    (events : list ((ServiceWorker.Request → option ServiceWorker.Response)
                    * ServiceWorker.Request))
    (caches : ServiceWorker.CacheStorage) : ServiceWorker.CacheStorage :=
  foldl (fun storage event =>
           ServiceWorker.storage
             (ServiceWorker.onFetch (fst event) (snd event) storage))
        caches events.

End Props.

(** ** Sample data *)

Module Samples.

Import FirebaseService DriveService.

Definition photoA : DriveFile :=
  mkDriveFile "idA" "a.jpg" "https://lh3.example/a=s220" "image/jpeg".
Definition photoB : DriveFile :=
  mkDriveFile "idB" "b.jpg" "https://lh3.example/b=s220" "image/jpeg".
Definition clipC : DriveFile :=
  mkDriveFile "idC" "c.mp4" "https://lh3.example/c=s220" "video/mp4".

Definition configured : Service :=
  initialize ["AIzaKey"; "zelect.firebaseapp.com"; "zelect"] (Some FirestoreHandle).

Definition unconfigured : Service :=
  initialize ["YOUR_API_KEY"; "YOUR_AUTH_DOMAIN"; "YOUR_PROJECT_ID"]
    (Some FirestoreHandle).

Definition emptyWorld : World :=
  {| docs := ∅; ops := []; listeners := []; nextListener := O; console := [] |}.

(** Another session that toggles [photoB] on and off, committing once during
    each of five attempts. *)
Definition busy : list (option GalleryDoc) :=
  [Some {| favorites := Some [mkFavorite "idB" "b.jpg"] |};
   Some {| favorites := Some [] |};
   Some {| favorites := Some [mkFavorite "idB" "b.jpg"] |};
   Some {| favorites := Some [] |};
   Some {| favorites := Some [mkFavorite "idB" "b.jpg"] |}].

(** A listing of [n] photos with ids [id0], [id1], ... *)
Definition numbered (n : nat) : list DriveFile :=
  (fun i : nat =>
     mkDriveFile ("id" ++ pretty i)%string ("photo" ++ pretty i ++ ".jpg")%string
       "https://lh3.example/p=s220" "image/jpeg") <$> seq 0 n.

Definition gallery (items : list DriveFile) (favs : list Favorite)
    (favoritesView : bool) (page : Z) : GalleryView.State :=
  {| GalleryView.folderId := Some "folder1";
     GalleryView.allItems := items;
     GalleryView.favorites := favs;
     GalleryView.isLoading := false;
     GalleryView.error := None;
     GalleryView.isFavoritesView := favoritesView;
     GalleryView.currentPage := page;
     GalleryView.detailViewIndex := None |}.




Definition picked : GalleryView.State :=
  gallery [photoA; photoB; clipC]
    [mkFavorite "idC" "c.mp4"; mkFavorite "idA" "a.jpg"] true 1.

(** A provider holding two pages of the folder [folder1]. *)
Definition firstPage : FilesPage :=
  {| files := Some [photoA; photoB]; nextPageToken := Some "token1" |}.
Definition secondPage : FilesPage :=
  {| files := Some [clipC]; nextPageToken := None |}.

Definition twoPages : Provider :=
  fun folderId param =>
    if String.eqb folderId "folder1"
    then match param with
         | None => Ok firstPage
         | Some token =>
             if String.eqb token "token1" then Ok secondPage
             else NotOk "Bad Request" (Some "Invalid page token")
         end
    else NotOk "Not Found" (Some "File not found").

(** The same provider with the second request refused. *)
Definition secondRefused : Provider :=
  fun folderId param =>
    match param with
    | None => twoPages folderId None
    | Some _ => NotOk "Forbidden" (Some "Rate limit exceeded")
    end.

Definition lastIndex : DetailView.State :=
  {| DetailView.currentIndex := 2; DetailView.isMediaLoading := false |}.

(** A provider that never runs out of continuation tokens. *)
Definition endless : Provider :=
  fun _ _ => Ok {| files := Some [photoA]; nextPageToken := Some "again" |}.

(** The gallery before its listing has arrived, and on its last page. *)
Definition loadingGallery : GalleryView.State :=
  {| GalleryView.folderId := Some "folder1";
     GalleryView.allItems := [];
     GalleryView.favorites := [];
     GalleryView.isLoading := true;
     GalleryView.error := None;
     GalleryView.isFavoritesView := false;
     GalleryView.currentPage := 1;
     GalleryView.detailViewIndex := None |}.

Definition lastPage : GalleryView.State := gallery (numbered 120) [] false 3.

(** A world whose document for [folder1] holds the favorites of
    [picked]. *)
Definition syncedWorld : World :=
  {| docs := {[ "folder1" :=
                  {| favorites :=
                       Some [mkFavorite "idC" "c.mp4"; mkFavorite "idA" "a.jpg"] |} ]};
     ops := []; listeners := []; nextListener := O; console := [] |}.

(** The viewer open on the last of three items in the all-items view. *)
Definition viewing : Props.Session :=
  {| Props.galleryView :=
       GalleryView.setDetailViewIndex (Some 2)
         (gallery [photoA; photoB; clipC]
            [mkFavorite "idC" "c.mp4"; mkFavorite "idA" "a.jpg"] false 1);
     Props.detailView := lastIndex;
     Props.world := syncedWorld |}.

Definition firstIndex : DetailView.State :=
  {| DetailView.currentIndex := 0; DetailView.isMediaLoading := false |}.

Definition pastedLink : string :=
  "https://drive.google.com/drive/folders/1AbC_d-9?usp=sharing".

Definition logoRequest : ServiceWorker.Request :=
  {| ServiceWorker.method := "GET";
     ServiceWorker.url := "https://zelect.example/icon-192x192.png";
     ServiceWorker.hostname := "zelect.example" |}.

Definition logoResponse : ServiceWorker.Response :=
  {| ServiceWorker.status := 200; ServiceWorker.body := "png" |}.

End Samples.

Import FirebaseService Props.

(** * Favorites store *)

Section FavoritesStore.

Variable maxAttempts : nat.

(** ** Initialisation *)

Lemma initialize_placeholder firebaseConfig sdk :
  existsb (includes "YOUR_") firebaseConfig = true →
  initialize firebaseConfig sdk = {| db := None; isFirebaseConfigured := false |}.
Proof. intros Hplaceholder. unfold initialize. by rewrite Hplaceholder. Qed.

Lemma initialize_flag firebaseConfig sdk :
  isFirebaseConfigured (initialize firebaseConfig sdk) = true
  ↔ is_Some (db (initialize firebaseConfig sdk)).
Proof.
  unfold initialize.
  destruct (existsb _ _), sdk; cbn; split;
    (done || (by intros [? [=]]) || (by eexists) || idtac).
Qed.

(** ** The update computed inside the transaction *)

Lemma isCurrentlyFavorite_true current file :
  isCurrentlyFavorite current file = true ↔ file_id file ∈ fav_id <$> current.
Proof.
  unfold isCurrentlyFavorite. rewrite existsb_exists, list_elem_of_fmap.
  split.
  - intros (fav & Hin & Heq). apply String.eqb_eq in Heq.
    exists fav. split; [done | by apply list_elem_of_In].
  - intros (fav & Heq & Hin). exists fav.
    split; [by apply list_elem_of_In | by apply String.eqb_eq].
Qed.

Lemma isCurrentlyFavorite_false current file :
  isCurrentlyFavorite current file = false ↔ file_id file ∉ fav_id <$> current.
Proof.
  rewrite <- isCurrentlyFavorite_true.
  destruct (isCurrentlyFavorite current file); split; congruence.
Qed.

Lemma elem_of_filter_otherThan id fav (l : list Favorite) :
  fav ∈ List.filter (otherThan id) l ↔ fav ∈ l ∧ fav_id fav ≠ id.
Proof.
  rewrite !list_elem_of_In, filter_In. unfold otherThan.
  rewrite negb_true_iff, String.eqb_neq. done.
Qed.

Lemma filter_otherThan_absent id (l : list Favorite) :
  id ∉ fav_id <$> l → List.filter (otherThan id) l = l.
Proof.
  induction l as [|fav l IH]; [done|].
  rewrite fmap_cons, not_elem_of_cons. intros [Hne Hnin].
  cbn. unfold otherThan at 1.
  destruct (String.eqb_spec (fav_id fav) id) as [Heq|_]; [congruence|].
  cbn. by rewrite IH.
Qed.

Lemma filter_otherThan_idemp id (l : list Favorite) :
  List.filter (otherThan id) (List.filter (otherThan id) l)
  = List.filter (otherThan id) l.
Proof.
  apply filter_otherThan_absent.
  rewrite list_elem_of_fmap. intros (fav & Heq & Hin).
  apply elem_of_filter_otherThan in Hin as [_ Hne]. by apply Hne.
Qed.

Lemma filter_otherThan_sublist id (l : list Favorite) :
  List.filter (otherThan id) l `sublist_of` l.
Proof.
  induction l as [|fav l IH]; [done|].
  cbn. destruct (otherThan id fav); by constructor.
Qed.

Lemma filter_otherThan_length id (l : list Favorite) :
  id ∈ fav_id <$> l →
  (length (List.filter (otherThan id) l) < length l)%nat.
Proof.
  induction l as [|fav l IH]; [by rewrite fmap_nil, elem_of_nil|].
  rewrite fmap_cons, elem_of_cons. intros Hin. cbn. unfold otherThan at 1.
  destruct (String.eqb_spec (fav_id fav) id) as [Heq|Hne]; cbn.
  - pose proof (sublist_length _ _ (filter_otherThan_sublist id l)). lia.
  - destruct Hin as [Heq|Hin']; [congruence|]. specialize (IH Hin'). lia.
Qed.

Lemma newFavorites_present current file :
  file_id file ∈ fav_id <$> current →
  newFavorites current file = List.filter (otherThan (file_id file)) current.
Proof.
  intros Hin. apply isCurrentlyFavorite_true in Hin.
  unfold newFavorites. by rewrite Hin.
Qed.

Lemma newFavorites_absent current file :
  file_id file ∉ fav_id <$> current →
  newFavorites current file = current ++ [entryOf file].
Proof.
  intros Hnin. apply isCurrentlyFavorite_false in Hnin.
  unfold newFavorites. by rewrite Hnin.
Qed.

Lemma newFavorites_others current file :
  List.filter (otherThan (file_id file)) (newFavorites current file)
  = List.filter (otherThan (file_id file)) current.
Proof.
  destruct (decide (file_id file ∈ fav_id <$> current)) as [Hin|Hnin].
  - rewrite newFavorites_present by done. apply filter_otherThan_idemp.
  - rewrite newFavorites_absent by done.
    rewrite List.filter_app. cbn. unfold otherThan at 2. cbn.
    rewrite String.eqb_refl. cbn. by rewrite app_nil_r.
Qed.

(** ** The transaction primitive *)

Lemma runTransaction_commits attempts folderId updateFunction others w :
  (contention others < attempts)%nat →
  let seen := theirWrites attempts folderId others (docs w) in
  let pending := updateFunction (seen !! folderId) in
  runTransaction attempts folderId updateFunction others w
  = (Committed,
     {| docs := <[folderId := pending]> seen;
        ops := ops w ++ reads (S (contention others)) folderId
                     ++ [TxSet folderId pending];
        listeners := listeners w; nextListener := nextListener w;
        console := console w |}).
Proof.
  revert others w.
  induction attempts as [|n IH]; intros others w Hlt; [lia|].
  destruct others as [|[theirs|] rest]; cbn in *.
  - unfold logOp, setDoc; cbn. by rewrite <- app_assoc.
  - rewrite IH by lia. cbn. by rewrite <- !app_assoc.
  - unfold logOp, setDoc; cbn. by rewrite <- app_assoc.
Qed.

Lemma runTransaction_aborts attempts folderId updateFunction others w :
  (attempts ≤ contention others)%nat →
  ∃ message,
    runTransaction attempts folderId updateFunction others w
    = (Aborted message,
       {| docs := theirWrites attempts folderId others (docs w);
          ops := ops w ++ reads attempts folderId;
          listeners := listeners w; nextListener := nextListener w;
          console := console w |}).
Proof.
  revert others w.
  induction attempts as [|n IH]; intros others w Hle.
  - eexists. cbn. destruct w; cbn. by rewrite app_nil_r.
  - destruct others as [|[theirs|] rest]; cbn in *; try lia.
    destruct (IH rest
      {| docs := <[folderId := theirs]> (docs w);
         ops := ops w ++ [TxGet folderId];
         listeners := listeners w; nextListener := nextListener w;
         console := console w |}) as [message Hrun]; [lia|].
    exists message. rewrite Hrun. cbn. by rewrite <- app_assoc.
Qed.

Lemma toggleFavoriteInFirestore_commits svc folderId file others w :
  is_Some (db svc) →
  (contention others < maxAttempts)%nat →
  let seen := theirWrites maxAttempts folderId others (docs w) in
  let pending := toggleUpdate file (seen !! folderId) in
  toggleFavoriteInFirestore maxAttempts svc folderId file others w
  = (Resolved tt,
     {| docs := <[folderId := pending]> seen;
        ops := ops w ++ reads (S (contention others)) folderId
                     ++ [TxSet folderId pending];
        listeners := listeners w; nextListener := nextListener w;
        console := console w |}).
Proof.
  intros [handle Hdb] Hlt. unfold toggleFavoriteInFirestore.
  rewrite Hdb, runTransaction_commits by done. done.
Qed.

Lemma toggleFavoriteInFirestore_aborts svc folderId file others w :
  is_Some (db svc) →
  (maxAttempts ≤ contention others)%nat →
  ∃ message,
    runTransaction maxAttempts folderId (toggleUpdate file) others w
    = (Aborted message,
       {| docs := theirWrites maxAttempts folderId others (docs w);
          ops := ops w ++ reads maxAttempts folderId;
          listeners := listeners w; nextListener := nextListener w;
          console := console w |})
    ∧ toggleFavoriteInFirestore maxAttempts svc folderId file others w
      = (Resolved tt,
         {| docs := theirWrites maxAttempts folderId others (docs w);
            ops := ops w ++ reads maxAttempts folderId;
            listeners := listeners w; nextListener := nextListener w;
            console :=
              console w ++
              [("Error updating favorites in Firestore transaction: "
                ++ message)%string] |}).
Proof.
  intros [handle Hdb] Hle.
  destruct (runTransaction_aborts maxAttempts folderId (toggleUpdate file)
              others w Hle) as [message Hrun].
  exists message. split; [done|].
  unfold toggleFavoriteInFirestore. by rewrite Hdb, Hrun.
Qed.

Lemma toggleFavoriteInFirestore_resolves svc folderId file others w :
  fst (toggleFavoriteInFirestore maxAttempts svc folderId file others w)
  = Resolved tt.
Proof.
  unfold toggleFavoriteInFirestore.
  destruct (db svc); [|done].
  by destruct (runTransaction _ _ _ _ _) as [[|message] w'].
Qed.

(** What the transaction reads is what the collection holds. *)
Lemma currentFavorites_stored (d : gmap string GalleryDoc) folderId :
  currentFavorites (d !! folderId) = storedFavorites d folderId.
Proof.
  unfold storedFavorites, currentFavorites.
  by destruct (d !! folderId) as [[[favs|]]|].
Qed.

Lemma storedFavorites_insert (d : gmap string GalleryDoc) folderId favs :
  storedFavorites (<[folderId := {| favorites := Some favs |}]> d) folderId = favs.
Proof. unfold storedFavorites. by rewrite lookup_insert_eq. Qed.

(** C1. With the store configured and fewer lost attempts than the retry
    budget, [toggleFavoriteInFirestore] resolves having read the folder's
    document and written it back once, the other documents untouched. With
    [stored] the favorites sequence the collection held for the folder when
    the committing attempt read it and [new] the sequence it holds
    afterwards: when the file's id is among the stored favorites, [new] is
    [stored] without the entries of that id (a shorter subsequence, nothing
    appended); when it is not, [new] is [stored] followed by the file's
    entry (nothing removed); in both cases the entries with other ids are
    the same, in the same order. *)
Theorem toggleFavorite_read_modify_write svc folderId file others w :
  is_Some (db svc) →
  (contention others < maxAttempts)%nat →
  let seen := theirWrites maxAttempts folderId others (docs w) in
  let stored := storedFavorites seen folderId in
  let result := toggleFavoriteInFirestore maxAttempts svc folderId file others w in
  let new := storedFavorites (docs (snd result)) folderId in
  result
  = (Resolved tt,
     {| docs := <[folderId := {| favorites := Some new |}]> seen;
        ops := ops w ++ reads (S (contention others)) folderId
                     ++ [TxSet folderId {| favorites := Some new |}];
        listeners := listeners w; nextListener := nextListener w;
        console := console w |})
  ∧ (file_id file ∈ fav_id <$> stored →
       new = List.filter (otherThan (file_id file)) stored
       ∧ (file_id file ∉ fav_id <$> new)
       ∧ new `sublist_of` stored
       ∧ (length new < length stored)%nat)
  ∧ (file_id file ∉ fav_id <$> stored →
       new = stored ++ [entryOf file])
  ∧ List.filter (otherThan (file_id file)) new
    = List.filter (otherThan (file_id file)) stored.
Proof.
  intros Hdb Hlt seen stored result new.
  assert (result
          = (Resolved tt,
             {| docs := <[folderId :=
                            {| favorites := Some (newFavorites stored file) |}]> seen;
                ops := ops w ++ reads (S (contention others)) folderId
                             ++ [TxSet folderId
                                   {| favorites := Some (newFavorites stored file) |}];
                listeners := listeners w; nextListener := nextListener w;
                console := console w |})) as Hresult.
  { subst result stored seen.
    rewrite toggleFavoriteInFirestore_commits by done.
    unfold toggleUpdate. by rewrite currentFavorites_stored. }
  assert (new = newFavorites stored file) as Hnew.
  { subst new. rewrite Hresult. cbn [snd docs]. apply storedFavorites_insert. }
  clearbody new result stored. subst new.
  split; [exact Hresult|]. split; [|split].
  - intros Hin. rewrite newFavorites_present by done.
    split; [done|]. split; [|split].
    + rewrite list_elem_of_fmap. intros (fav & Heq & Hfav).
      apply elem_of_filter_otherThan in Hfav as [_ Hne]. by apply Hne.
    + apply filter_otherThan_sublist.
    + by apply filter_otherThan_length.
  - intros Hnin. by apply newFavorites_absent.
  - apply newFavorites_others.
Qed.

(** ** Toggling twice *)

Lemma theirWrites_nil attempts folderId d :
  theirWrites attempts folderId [] d = d.
Proof. by destruct attempts. Qed.

Lemma favoriteIdsOf_filter id (l : list Favorite) :
  favoriteIdsOf (List.filter (otherThan id) l) = favoriteIdsOf l ∖ {[id]}.
Proof.
  unfold favoriteIdsOf. apply set_eq. intros x.
  rewrite elem_of_difference, !elem_of_list_to_set, !list_elem_of_fmap,
    not_elem_of_singleton.
  split.
  - intros (fav & -> & Hin). apply elem_of_filter_otherThan in Hin as [Hin Hne].
    split; [by exists fav | done].
  - intros [(fav & -> & Hin) Hne]. exists fav. split; [done|].
    by apply elem_of_filter_otherThan.
Qed.

Lemma newFavorites_twice current file :
  favoriteIdsOf (newFavorites (newFavorites current file) file)
  = favoriteIdsOf current.
Proof.
  destruct (decide (file_id file ∈ fav_id <$> current)) as [Hin|Hnin].
  - rewrite (newFavorites_present current) by done.
    rewrite newFavorites_absent.
    + unfold favoriteIdsOf at 1. rewrite fmap_app, list_to_set_app_L.
      fold (favoriteIdsOf (List.filter (otherThan (file_id file)) current)).
      rewrite favoriteIdsOf_filter. cbn.
      assert (file_id file ∈ favoriteIdsOf current) as Hset
        by (unfold favoriteIdsOf; by apply elem_of_list_to_set).
      apply set_eq. intros x.
      rewrite elem_of_union, elem_of_difference, not_elem_of_singleton,
        elem_of_union, elem_of_singleton, elem_of_empty.
      destruct (decide (x = file_id file)) as [->|Hne]; tauto.
    + rewrite list_elem_of_fmap. intros (fav & Heq & Hfav).
      apply elem_of_filter_otherThan in Hfav as [_ Hne]. by apply Hne.
  - rewrite (newFavorites_absent current) by done.
    rewrite newFavorites_present.
    + rewrite List.filter_app. cbn. unfold otherThan at 2. cbn.
      rewrite String.eqb_refl. cbn.
      by rewrite app_nil_r, filter_otherThan_absent.
    + rewrite fmap_app, elem_of_app. right. cbn. by left.
Qed.

(** C3. With the store configured and no other session writing in between,
    two calls of [toggleFavoriteInFirestore] for the same folder and file
    leave the set of favorited ids the collection holds for the folder as it
    was, and the other folders' documents untouched. The stored sequence
    itself comes back unchanged when the id was not stored; when it was, its
    entries have been replaced by the file's entry at the end. *)
Theorem toggleFavorite_twice_same_set svc folderId file w :
  is_Some (db svc) →
  (0 < maxAttempts)%nat →
  let w1 := snd (toggleFavoriteInFirestore maxAttempts svc folderId file [] w) in
  let w2 := snd (toggleFavoriteInFirestore maxAttempts svc folderId file [] w1) in
  let stored := storedFavorites (docs w) folderId in
  let again := storedFavorites (docs w2) folderId in
  storedIds (docs w2) folderId = storedIds (docs w) folderId
  ∧ (file_id file ∉ fav_id <$> stored → again = stored)
  ∧ (file_id file ∈ fav_id <$> stored →
     again = List.filter (otherThan (file_id file)) stored ++ [entryOf file])
  ∧ ∀ other, other ≠ folderId → docs w2 !! other = docs w !! other.
Proof.
  intros Hdb Hpos w1 w2 stored again.
  assert (again = newFavorites (newFavorites stored file) file) as Hagain.
  { subst again w2 w1 stored.
    rewrite !toggleFavoriteInFirestore_commits by (cbn; done || lia).
    cbn [snd docs]. rewrite !theirWrites_nil. unfold toggleUpdate.
    rewrite storedFavorites_insert, !currentFavorites_stored.
    by rewrite storedFavorites_insert. }
  split; [|split; [|split]].
  - unfold storedIds. fold again stored. rewrite Hagain.
    apply newFavorites_twice.
  - intros Hnin. rewrite Hagain, (newFavorites_absent stored) by done.
    rewrite newFavorites_present.
    + rewrite List.filter_app. cbn. unfold otherThan at 2. cbn.
      rewrite String.eqb_refl. cbn.
      by rewrite app_nil_r, filter_otherThan_absent.
    + rewrite fmap_app, elem_of_app. right. cbn. by left.
  - intros Hin. rewrite Hagain, (newFavorites_present stored) by done.
    apply newFavorites_absent.
    rewrite list_elem_of_fmap. intros (fav & Heq & Hfav).
    apply elem_of_filter_otherThan in Hfav as [_ Hne]. by apply Hne.
  - intros other Hne. subst w2 w1.
    rewrite !toggleFavoriteInFirestore_commits by (cbn; done || lia).
    cbn [snd docs]. rewrite !theirWrites_nil. by rewrite !lookup_insert_ne.
Qed.

(** ** No duplicate ids *)

Lemma newFavorites_NoDup current file :
  NoDup (fav_id <$> current) → NoDup (fav_id <$> newFavorites current file).
Proof.
  intros Hnd.
  destruct (decide (file_id file ∈ fav_id <$> current)) as [Hin|Hnin].
  - rewrite newFavorites_present by done.
    eapply sublist_NoDup; [exact Hnd|].
    apply fmap_sublist, filter_otherThan_sublist.
  - rewrite newFavorites_absent by done.
    rewrite fmap_app. apply NoDup_app. split; [done|]. split.
    + cbn. intros x Hx Hx'. apply list_elem_of_singleton in Hx'. by subst x.
    + cbn. apply NoDup_singleton.
Qed.

Lemma noDuplicates_insert folderId data d :
  docNoDuplicates data → noDuplicates d → noDuplicates (<[folderId := data]> d).
Proof.
  intros Hdata Hd folder' data'. rewrite lookup_insert.
  case_decide; [intros [= <-]; done | apply Hd].
Qed.

Lemma theirWrites_noDuplicates attempts folderId others d :
  othersNoDuplicates others → noDuplicates d →
  noDuplicates (theirWrites attempts folderId others d).
Proof.
  revert others d.
  induction attempts as [|n IH]; intros others d Hothers Hd; [done|].
  destruct others as [|[theirs|] rest]; cbn; [done| |done].
  apply IH.
  - intros data Hin. apply Hothers. by right.
  - apply noDuplicates_insert; [|done]. apply Hothers. by left.
Qed.

Lemma toggleUpdate_noDuplicates file d folderId :
  noDuplicates d → docNoDuplicates (toggleUpdate file (d !! folderId)).
Proof.
  intros Hd. unfold docNoDuplicates, toggleUpdate. cbn.
  apply newFavorites_NoDup.
  destruct (d !! folderId) as [data|] eqn:Hlook; [|cbn; constructor].
  exact (Hd folderId data Hlook).
Qed.

Lemma toggleFavoriteInFirestore_noDuplicates svc folderId file others w :
  othersNoDuplicates others → noDuplicates (docs w) →
  noDuplicates
    (docs (snd (toggleFavoriteInFirestore maxAttempts svc folderId file others w))).
Proof.
  intros Hothers Hw.
  destruct (db svc) as [handle|] eqn:Hdb;
    [|unfold toggleFavoriteInFirestore; by rewrite Hdb].
  assert (is_Some (db svc)) as Hsome by (by rewrite Hdb).
  destruct (decide (contention others < maxAttempts)%nat) as [Hlt|Hge].
  - rewrite toggleFavoriteInFirestore_commits by done. cbn.
    apply noDuplicates_insert.
    + by apply toggleUpdate_noDuplicates, theirWrites_noDuplicates.
    + by apply theirWrites_noDuplicates.
  - destruct (toggleFavoriteInFirestore_aborts svc folderId file others w Hsome)
      as (message & _ & ->); [lia|].
    cbn. by apply theirWrites_noDuplicates.
Qed.

(** C9. Starting from a collection in which every document is absent or
    holds no favorites, after any run of [toggleFavoriteInFirestore] calls
    (other sessions writing in between under the same discipline) no stored
    favorites sequence has two entries with the same id. *)
Theorem favorites_never_duplicated svc calls w :
  noFavorites (docs w) →
  Forall (fun c => othersNoDuplicates (call_others c)) calls →
  noDuplicates (docs (runToggles maxAttempts svc calls w)).
Proof.
  intros Hempty Hcalls.
  assert (noDuplicates (docs w)) as Hw.
  { intros folderId data Hlook. unfold docNoDuplicates.
    specialize (Hempty folderId). rewrite Hlook in Hempty.
    rewrite Hempty. constructor. }
  clear Hempty. revert w Hw.
  induction Hcalls as [|c calls Hc Hcalls IH]; intros w Hw; [done|].
  cbn. apply IH. by apply toggleFavoriteInFirestore_noDuplicates.
Qed.

(** ** A transaction that cannot commit *)

(** C2 (as the code has it). With the store configured, when every attempt
    within the retry budget is lost to another session the transaction
    rejects, and [toggleFavoriteInFirestore] catches that: it logs the error
    on the console and resolves. The call has applied no write (the
    collection holds what the other sessions wrote, the trace shows reads
    only), and the calling component's state is returned as it was. *)
Theorem toggleFavorite_contended_resolves svc folderId file others w :
  is_Some (db svc) →
  (maxAttempts ≤ contention others)%nat →
  ∃ message,
    fst (runTransaction maxAttempts folderId (toggleUpdate file) others w)
    = Aborted message
    ∧ toggleFavoriteInFirestore maxAttempts svc folderId file others w
      = (Resolved tt,
         {| docs := theirWrites maxAttempts folderId others (docs w);
            ops := ops w ++ reads maxAttempts folderId;
            listeners := listeners w; nextListener := nextListener w;
            console :=
              console w ++
              [("Error updating favorites in Firestore transaction: "
                ++ message)%string] |})
    ∧ ∀ s id,
        fst (GalleryView.toggleFavorite maxAttempts svc s id others w)
        = (Resolved tt, s).
Proof.
  intros Hdb Hle.
  destruct (toggleFavoriteInFirestore_aborts svc folderId file others w Hdb Hle)
    as (message & Hrun & Htoggle).
  exists message. split; [by rewrite Hrun|]. split; [done|].
  intros s id. unfold GalleryView.toggleFavorite.
  destruct (GalleryView.folderId s) as [folder|]; [|done].
  destruct (_ || _); [done|].
  destruct (List.find _ _) as [found|]; [|done].
  pose proof (toggleFavoriteInFirestore_resolves svc folder found others w)
    as Hres.
  destruct (toggleFavoriteInFirestore maxAttempts svc folder found others w)
    as [p w'].
  cbn in *. by subst p.
Qed.

(** ** The store without credentials *)

(** C5. Without a Firestore handle, [onFavoritesChange] attaches nothing and
    returns an unsubscribe function that does nothing, and
    [toggleFavoriteInFirestore] resolves leaving the world (documents and
    trace of remote operations included) as it was. *)
Theorem unconfigured_store_is_inert svc :
  db svc = None →
  (∀ folderId w,
     snd (onFavoritesChange svc folderId w) = w
     ∧ ∀ w', fst (onFavoritesChange svc folderId w) w' = w')
  ∧ (∀ folderId file others w,
       toggleFavoriteInFirestore maxAttempts svc folderId file others w
       = (Resolved tt, w)).
Proof.
  intros Hdb. split.
  - intros folderId w. unfold onFavoritesChange. by rewrite Hdb.
  - intros folderId file others w. unfold toggleFavoriteInFirestore.
    by rewrite Hdb.
Qed.

End FavoritesStore.

(** * Gallery view *)

Section Windowing.

Import GalleryView.

Lemma list_filter_sublist {A : Type} (f : A → bool) (l : list A) :
  List.filter f l `sublist_of` l.
Proof.
  induction l as [|x l IH]; [done|].
  cbn. destruct (f x); by constructor.
Qed.

Lemma isFavorited_true favs id :
  isFavorited favs id = true ↔ id ∈ favoriteIdsOf favs.
Proof.
  unfold isFavorited, favoriteIdsOf.
  rewrite existsb_exists, elem_of_list_to_set, list_elem_of_fmap.
  split.
  - intros (fav & Hin & Heq). apply String.eqb_eq in Heq.
    exists fav. split; [done | by apply list_elem_of_In].
  - intros (fav & Heq & Hin). exists fav.
    split; [by apply list_elem_of_In | by apply String.eqb_eq].
Qed.

Lemma isFavorited_bool_decide favs id :
  isFavorited favs id = bool_decide (id ∈ favoriteIdsOf favs).
Proof.
  destruct (isFavorited favs id) eqn:Hfav; symmetry.
  - by apply bool_decide_eq_true, isFavorited_true.
  - apply bool_decide_eq_false. rewrite <- isFavorited_true. congruence.
Qed.

Lemma filtered_ids_intersection favs (items : list DriveFile) :
  list_to_set
    (file_id <$> List.filter (fun item => isFavorited favs (file_id item)) items)
  = itemIds items ∩ favoriteIdsOf favs.
Proof.
  unfold itemIds. apply set_eq. intros x.
  rewrite elem_of_intersection, !elem_of_list_to_set, !list_elem_of_fmap.
  split.
  - intros (item & -> & Hin). apply list_elem_of_In, filter_In in Hin.
    destruct Hin as [Hin Hfav]. apply isFavorited_true in Hfav.
    split; [|done]. exists item. split; [done | by apply list_elem_of_In].
  - intros [(item & -> & Hin) Hfav]. exists item. split; [done|].
    apply list_elem_of_In, filter_In. split; [by apply list_elem_of_In|].
    by apply isFavorited_true.
Qed.

(** C6. In the favorites-only view the filtered sequence is [allItems]
    restricted to the items whose id is in the set of favorited ids: a
    subsequence of [allItems] in [allItems] order, holding exactly those
    items; and, the ids of [allItems] being distinct, its length is the size
    of the intersection of the ids of [allItems] with the favorited ids. *)
Theorem favoritesOnly_is_ordered_restriction (s : State) :
  isFavoritesView s = true →
  let favIds := favoriteIdsOf (favorites s) in
  filteredItems s
  = List.filter (fun item => bool_decide (file_id item ∈ favIds)) (allItems s)
  ∧ filteredItems s `sublist_of` allItems s
  ∧ (∀ item, item ∈ filteredItems s
             ↔ item ∈ allItems s ∧ file_id item ∈ favIds)
  ∧ (NoDup (file_id <$> allItems s) →
     length (filteredItems s) = size (itemIds (allItems s) ∩ favIds)).
Proof.
  intros Hview favIds. subst favIds. unfold filteredItems. rewrite Hview.
  split; [|split; [|split]].
  - apply List.filter_ext. intros item. apply isFavorited_bool_decide.
  - apply list_filter_sublist.
  - intros item. rewrite !list_elem_of_In, filter_In, isFavorited_true. done.
  - intros Hnd. rewrite <- filtered_ids_intersection.
    rewrite size_list_to_set, length_fmap; [done|].
    eapply sublist_NoDup; [exact Hnd|].
    apply fmap_sublist, list_filter_sublist.
Qed.

(** *** Pagination *)

Lemma totalPages_ceiling (s : State) :
  totalPages s = - ((- Z.of_nat (length (filteredItems s))) / ITEMS_PER_PAGE).
Proof.
  unfold totalPages, Qround.Qceiling, Qround.Qfloor, ITEMS_PER_PAGE. cbn.
  by rewrite Z.mul_1_r.
Qed.

Lemma totalPages_bounds (s : State) :
  ITEMS_PER_PAGE * (totalPages s - 1) < Z.of_nat (length (filteredItems s))
  ≤ ITEMS_PER_PAGE * totalPages s.
Proof.
  rewrite totalPages_ceiling. unfold ITEMS_PER_PAGE.
  pose proof (Z.div_mod (- Z.of_nat (length (filteredItems s))) 50) as Hdm.
  pose proof (Z.mod_pos_bound (- Z.of_nat (length (filteredItems s))) 50) as Hb.
  lia.
Qed.

Lemma slice_from_nonneg {A : Type} (l : list A) (start count : Z) :
  0 ≤ start → 0 ≤ count →
  slice l start (start + count) = take (Z.to_nat count) (drop (Z.to_nat start) l).
Proof.
  intros Hstart Hcount. unfold slice.
  destruct (start <? 0) eqn:Hs; [lia|].
  destruct (start + count <? 0) eqn:He; [lia|].
  destruct (decide (Z.of_nat (length l) ≤ start)) as [Hout|Hin].
  - rewrite Z.min_r, Z.min_r by lia. rewrite Nat2Z.id, Z.sub_diag.
    rewrite !drop_ge by lia. by rewrite !take_nil.
  - rewrite (Z.min_l start) by lia.
    destruct (decide (start + count ≤ Z.of_nat (length l))) as [Hfull|Hpart].
    + rewrite Z.min_l by lia. f_equal. lia.
    + rewrite Z.min_r by lia.
      rewrite !take_ge; [done| |]; rewrite length_drop; lia.
Qed.

Lemma visibleItems_lookup (s : State) (i : nat) :
  1 ≤ currentPage s →
  visibleItems s !! i
  = if decide (Z.of_nat i < ITEMS_PER_PAGE)
    then filteredItems s
           !! (Z.to_nat ((currentPage s - 1) * ITEMS_PER_PAGE) + i)%nat
    else None.
Proof.
  intros Hpage. unfold visibleItems.
  rewrite slice_from_nonneg by (unfold ITEMS_PER_PAGE; lia).
  rewrite lookup_take, lookup_drop. unfold ITEMS_PER_PAGE.
  destruct (decide (i < Z.to_nat 50)%nat), (decide (Z.of_nat i < 50));
    (done || lia).
Qed.

Lemma visibleItems_length (s : State) :
  1 ≤ currentPage s →
  Z.of_nat (length (visibleItems s))
  = Z.max 0 (Z.min ITEMS_PER_PAGE
               (Z.of_nat (length (filteredItems s))
                - (currentPage s - 1) * ITEMS_PER_PAGE)).
Proof.
  intros Hpage. unfold visibleItems.
  rewrite slice_from_nonneg by (unfold ITEMS_PER_PAGE; lia).
  rewrite length_take, length_drop. unfold ITEMS_PER_PAGE. lia.
Qed.





(** *** Toggling from the gallery *)

Lemma find_unlisted (items : list DriveFile) id :
  id ∉ (file_id <$> items) →
  List.find (fun f => String.eqb (file_id f) id) items = None.
Proof.
  induction items as [|item items IH]; [done|].
  rewrite fmap_cons, not_elem_of_cons. intros [Hne Hnin]. cbn.
  destruct (String.eqb_spec (file_id item) id) as [Heq|_]; [congruence|].
  by apply IH.
Qed.

(** C10. For an id that no item of [allItems] has, the component's
    [toggleFavorite] resolves and leaves the component state and the world
    as they were: no document is read or written. *)
Theorem toggleFavorite_unlisted_is_noop maxAttempts svc (s : State) id others w :
  id ∉ (file_id <$> allItems s) →
  toggleFavorite maxAttempts svc s id others w = (Resolved tt, s, w).
Proof.
  intros Hnin. unfold toggleFavorite.
  destruct (folderId s) as [folder|]; [|done].
  destruct (_ || _); [done|].
  by rewrite find_unlisted.
Qed.

(** X6. Whenever the call does change the world, it is through
    [toggleFavoriteInFirestore] on a listed item of that id. *)
Lemma toggleFavorite_changes_only_listed maxAttempts svc (s : State) id others w :
  snd (toggleFavorite maxAttempts svc s id others w) ≠ w →
  ∃ folder file,
    folderId s = Some folder ∧ file ∈ allItems s ∧ file_id file = id
    ∧ snd (toggleFavorite maxAttempts svc s id others w)
      = snd (toggleFavoriteInFirestore maxAttempts svc folder file others w).
Proof.
  unfold toggleFavorite.
  destruct (folderId s) as [folder|]; [|done].
  destruct (_ || _); [done|].
  destruct (List.find _ _) as [file|] eqn:Hfind; [|done].
  intros _. apply find_some in Hfind as [Hin Heq].
  apply String.eqb_eq in Heq. exists folder, file.
  split; [done|]. split; [by apply list_elem_of_In|]. split; [done|].
  by destruct (toggleFavoriteInFirestore _ _ _ _ _ _).
Qed.

End Windowing.

(** * Detail view *)

Section Viewer.

Import DetailView.

Lemma setCurrentIndex_index i (s : State) :
  currentIndex (setCurrentIndex i s) = i.
Proof.
  unfold setCurrentIndex.
  destruct (Z.eqb_spec i (currentIndex s)) as [Heq|Hne]; [by symmetry | done].
Qed.

(** C8. Over [N] items and a current index in [0, N): next from the last
    index goes to 0, previous from 0 goes to the last index, and any other
    next or previous moves by one (buttons and arrow keys alike); the
    favorite button and the space key leave the viewer state, current index
    included, as it is, whatever the index. *)
Theorem detail_navigation_wraps (items : list DriveFile) (s : State) :
  let N := Z.of_nat (length items) in
  (fst (handle items ClickFavorite s) = s
   ∧ fst (handle items (KeyDown " ") s) = s)
  ∧ (0 ≤ currentIndex s < N →
     fst (handle items ClickNext s) = handleNext items s
     ∧ fst (handle items (KeyDown "ArrowRight") s) = handleNext items s
     ∧ fst (handle items ClickPrev s) = handlePrev items s
     ∧ fst (handle items (KeyDown "ArrowLeft") s) = handlePrev items s
     ∧ (currentIndex s = N - 1 → currentIndex (handleNext items s) = 0)
     ∧ (currentIndex s = 0 → currentIndex (handlePrev items s) = N - 1)
     ∧ (currentIndex s < N - 1 →
        currentIndex (handleNext items s) = currentIndex s + 1)
     ∧ (0 < currentIndex s →
        currentIndex (handlePrev items s) = currentIndex s - 1)).
Proof.
  intros N. split; [by split|]. intros Hrange.
  repeat split; try reflexivity.
  - intros Hlast. unfold handleNext. rewrite setCurrentIndex_index.
    unfold nextUpdater. fold N. destruct (currentIndex s <? N - 1) eqn:Hlt; lia.
  - intros Hfirst. unfold handlePrev. rewrite setCurrentIndex_index.
    unfold prevUpdater. fold N. destruct (currentIndex s >? 0) eqn:Hgt; lia.
  - intros Hinner. unfold handleNext. rewrite setCurrentIndex_index.
    unfold nextUpdater. fold N. destruct (currentIndex s <? N - 1) eqn:Hlt; lia.
  - intros Hinner. unfold handlePrev. rewrite setCurrentIndex_index.
    unfold prevUpdater. fold N. destruct (currentIndex s >? 0) eqn:Hgt; lia.
Qed.

End Viewer.

(** * Media listing *)

Section Listing.

Import DriveService.

Variable provider : Provider.
Variable folderId : string.

Lemma continuations_cons page pages param :
  HoldsPages provider folderId param pages →
  continuations (page :: pages) = nextPageToken page :: continuations pages.
Proof. by intros [? ? ? ?|? ? ? ? ? ?]. Qed.

Lemma continuations_length pages param :
  HoldsPages provider folderId param pages →
  S (length (continuations pages)) = length pages.
Proof.
  induction 1 as [param page Hok Hlast|param page pages Hok Hmore Hrest IH];
    [done|].
  rewrite (continuations_cons _ _ _ Hrest). cbn. by rewrite IH.
Qed.

Lemma paramOf_truthy token : truthy token = true → paramOf token = token.
Proof. intros Htok. unfold paramOf. by rewrite Htok. Qed.

Lemma fetchPages_holds pages :
  ∀ fuel pageToken allFiles requests,
    HoldsPages provider folderId (paramOf pageToken) pages →
    (length pages ≤ fuel)%nat →
    fetchPages fuel provider folderId pageToken allFiles requests
    = Some (Resolved (allFiles ++ List.concat (pageFiles <$> pages)),
            requests ++ paramOf pageToken :: continuations pages).
Proof.
  induction pages as [|page pages IH];
    intros fuel pageToken allFiles requests Hholds Hfuel; [inversion Hholds|].
  destruct fuel as [|fuel]; [cbn in Hfuel; lia|].
  cbn [fetchPages]. fold (paramOf pageToken).
  inversion Hholds as [param page' Hok Hlast|param page' pages' Hok Hmore Hrest];
    subst; rewrite Hok.
  - rewrite Hlast. cbn. rewrite app_nil_r.
    unfold pageFiles. destruct (files page); by rewrite ?app_nil_r.
  - rewrite Hmore. rewrite <- (paramOf_truthy _ Hmore) in Hrest.
    rewrite (IH fuel) by (done || (cbn in Hfuel; lia)).
    rewrite (paramOf_truthy _ Hmore).
    rewrite (continuations_cons page pages (nextPageToken page))
      by (by rewrite <- (paramOf_truthy _ Hmore)).
    cbn. rewrite <- !app_assoc. cbn.
    unfold pageFiles at 2. destruct (files page); by rewrite <- ?app_assoc.
Qed.

Lemma fetchPages_fails fetched :
  ∀ fuel pageToken allFiles requests message,
    FailsAfter provider folderId (paramOf pageToken) fetched message →
    (length fetched < fuel)%nat →
    fetchPages fuel provider folderId pageToken allFiles requests
    = Some (Rejected message,
            requests ++ paramOf pageToken :: (nextPageToken <$> fetched)).
Proof.
  induction fetched as [|page fetched IH];
    intros fuel pageToken allFiles requests message Hfails Hfuel;
    (destruct fuel as [|fuel]; [cbn in Hfuel; lia|]);
    cbn [fetchPages]; fold (paramOf pageToken);
    inversion Hfails as [param message' Hthrown
                        |param page' fetched' message' Hok Hmore Hrest]; subst.
  - destruct (provider folderId (paramOf pageToken)); cbn in Hthrown;
      by simplify_eq.
  - rewrite Hok, Hmore. rewrite <- (paramOf_truthy _ Hmore) in Hrest.
    rewrite (IH fuel _ _ _ message) by (done || (cbn in Hfuel; lia)).
    rewrite (paramOf_truthy _ Hmore). cbn. by rewrite <- !app_assoc.
Qed.

Lemma fetchPages_resolved fuel :
  ∀ pageToken allFiles requests fs requests',
    fetchPages fuel provider folderId pageToken allFiles requests
    = Some (Resolved fs, requests') →
    ∃ pages,
      HoldsPages provider folderId (paramOf pageToken) pages
      ∧ fs = allFiles ++ List.concat (pageFiles <$> pages)
      ∧ requests' = requests ++ paramOf pageToken :: continuations pages.
Proof.
  induction fuel as [|fuel IH];
    intros pageToken allFiles requests fs requests' Hrun; [done|].
  cbn [fetchPages] in Hrun. fold (paramOf pageToken) in Hrun.
  destruct (provider folderId (paramOf pageToken)) as [| | |page] eqn:Hok;
    try done.
  destruct (truthy (nextPageToken page)) eqn:Htok.
  - apply IH in Hrun as (pages & Hholds & -> & ->).
    rewrite (paramOf_truthy _ Htok) in Hholds.
    exists (page :: pages). split; [by apply holds_more|].
    rewrite (continuations_cons page pages _ Hholds).
    rewrite (paramOf_truthy _ Htok). cbn. rewrite <- !app_assoc. cbn.
    unfold pageFiles at 2. destruct (files page); by rewrite <- ?app_assoc.
  - injection Hrun as <- <-. exists [page]. split; [by apply holds_last|].
    cbn. rewrite app_nil_r. unfold pageFiles.
    destruct (files page); by rewrite ?app_nil_r.
Qed.

(** C4. With an API key configured: when the provider holds the pages
    [pages] of the folder, [getFiles] (given room for that many iterations)
    resolves with the concatenation of the files of all the pages, having
    sent as many requests as there are pages, the first without a page token
    and one more with the continuation token of every page that carried
    one; when a request fails after some pages, [getFiles] rejects with that
    request's error and returns no files; and whenever [getFiles] resolves,
    what it returns is the concatenation of all the pages the provider
    holds. *)
Theorem getFiles_lists_every_page (API_KEY : string) :
  apiKeyMissing API_KEY = false →
  (∀ pages fuel,
     HoldsPages provider folderId None pages →
     (length pages ≤ fuel)%nat →
     getFiles API_KEY provider fuel folderId
     = Some (Resolved (List.concat (pageFiles <$> pages)),
             None :: continuations pages)
     ∧ length (None :: continuations pages) = length pages)
  ∧ (∀ fetched message fuel,
       FailsAfter provider folderId None fetched message →
       (length fetched < fuel)%nat →
       getFiles API_KEY provider fuel folderId
       = Some (Rejected message, None :: (nextPageToken <$> fetched)))
  ∧ (∀ fuel fs requests,
       getFiles API_KEY provider fuel folderId = Some (Resolved fs, requests) →
       ∃ pages,
         HoldsPages provider folderId None pages
         ∧ fs = List.concat (pageFiles <$> pages)
         ∧ requests = None :: continuations pages).
Proof.
  intros Hkey. unfold getFiles. rewrite Hkey. split; [|split].
  - intros pages fuel Hholds Hfuel. split.
    + by rewrite (fetchPages_holds pages fuel None [] []).
    + cbn. by apply continuations_length with (param := None).
  - intros fetched message fuel Hfails Hfuel.
    by rewrite (fetchPages_fails fetched fuel None [] [] message).
  - intros fuel fs requests Hrun.
    apply fetchPages_resolved in Hrun as (pages & Hholds & -> & ->).
    by exists pages.
Qed.

End Listing.

(** ** Instances *)

Import Samples.

Lemma toggleFavorite_read_modify_write_witness :
  is_Some (db configured)
  ∧ (contention [] < 5)%nat
  ∧ storedFavorites (docs syncedWorld) "folder1"
    = [mkFavorite "idC" "c.mp4"; mkFavorite "idA" "a.jpg"]
  ∧ storedFavorites
      (docs (snd (toggleFavoriteInFirestore 5 configured "folder1" photoA []
                    syncedWorld))) "folder1"
    = [mkFavorite "idC" "c.mp4"]
  ∧ storedFavorites
      (docs (snd (toggleFavoriteInFirestore 5 configured "folder1" photoB []
                    syncedWorld))) "folder1"
    = [mkFavorite "idC" "c.mp4"; mkFavorite "idA" "a.jpg";
       mkFavorite "idB" "b.jpg"].
Proof.
  assert (is_Some (db configured)) as Hdb by (by eexists).
  assert (contention [] < 5)%nat as Hlt by (cbn; lia).
  assert (file_id photoA
          ∈ (fav_id <$> [mkFavorite "idC" "c.mp4"; mkFavorite "idA" "a.jpg"]))
    as Hin by (by compute_done).
  assert (file_id photoB
          ∉ (fav_id <$> [mkFavorite "idC" "c.mp4"; mkFavorite "idA" "a.jpg"]))
    as Hnin by (by compute_done).
  split; [exact Hdb|]. split; [exact Hlt|]. split; [reflexivity|]. split.
  - exact (proj1 (proj1 (proj2 (toggleFavorite_read_modify_write 5 configured
                                  "folder1" photoA [] syncedWorld Hdb Hlt))
                    Hin)).
  - exact (proj1 (proj2 (proj2 (toggleFavorite_read_modify_write 5 configured
                                  "folder1" photoB [] syncedWorld Hdb Hlt)))
             Hnin).
Defined.

Lemma toggleFavorite_twice_same_set_witness :
  is_Some (db configured)
  ∧ (0 < 5)%nat
  ∧ storedIds
      (docs (snd (toggleFavoriteInFirestore 5 configured "folder1" clipC []
                    (snd (toggleFavoriteInFirestore 5 configured "folder1"
                            clipC [] syncedWorld))))) "folder1"
    = storedIds (docs syncedWorld) "folder1"
  ∧ storedFavorites
      (docs (snd (toggleFavoriteInFirestore 5 configured "folder1" clipC []
                    (snd (toggleFavoriteInFirestore 5 configured "folder1"
                            clipC [] syncedWorld))))) "folder1"
    = [mkFavorite "idA" "a.jpg"; mkFavorite "idC" "c.mp4"].
Proof.
  assert (is_Some (db configured)) as Hdb by (by eexists).
  assert (0 < 5)%nat as Hpos by lia.
  assert (file_id clipC
          ∈ (fav_id <$> [mkFavorite "idC" "c.mp4"; mkFavorite "idA" "a.jpg"]))
    as Hin by (by compute_done).
  split; [exact Hdb|]. split; [exact Hpos|]. split.
  - exact (proj1 (toggleFavorite_twice_same_set 5 configured "folder1" clipC
                    syncedWorld Hdb Hpos)).
  - exact (proj1 (proj2 (proj2 (toggleFavorite_twice_same_set 5 configured
                                  "folder1" clipC syncedWorld Hdb Hpos)))
             Hin).
Defined.

Lemma favorites_never_duplicated_witness :
  noFavorites (docs emptyWorld)
  ∧ Forall (fun c => othersNoDuplicates (call_others c))
      [mkToggleCall "folder1" photoA []; mkToggleCall "folder1" photoB [];
       mkToggleCall "folder1" photoA []]
  ∧ noDuplicates
      (docs (runToggles 5 configured
               [mkToggleCall "folder1" photoA []; mkToggleCall "folder1" photoB [];
                mkToggleCall "folder1" photoA []]
               emptyWorld)).
Proof.
  assert (noFavorites (docs emptyWorld)) as Hempty.
  { intros folderId. cbn. by rewrite lookup_empty. }
  assert (Forall (fun c => othersNoDuplicates (call_others c))
            [mkToggleCall "folder1" photoA []; mkToggleCall "folder1" photoB [];
             mkToggleCall "folder1" photoA []]) as Hcalls.
  { repeat constructor; intros theirs Hin; cbn in Hin; by apply elem_of_nil in Hin. }
  split; [exact Hempty|]. split; [exact Hcalls|].
  exact (favorites_never_duplicated 5 configured _ emptyWorld Hempty Hcalls).
Defined.

(** At a transaction that loses all five attempts, the call resolves: no
    error reaches the caller. *)
Lemma toggleFavorite_contended_not_rejected :
  fst (runTransaction 5 "folder1" (toggleUpdate photoA) busy emptyWorld)
  = Aborted "transaction failed: too much contention"
  ∧ fst (toggleFavoriteInFirestore 5 configured "folder1" photoA busy emptyWorld)
    = Resolved tt
  ∧ ¬ (∃ message,
         fst (toggleFavoriteInFirestore 5 configured "folder1" photoA busy
                emptyWorld)
         = Rejected message).
Proof.
  split; [reflexivity|]. split; [reflexivity|].
  intros [message Hrej]. discriminate Hrej.
Qed.

Lemma toggleFavorite_contended_resolves_witness :
  is_Some (db configured)
  ∧ (5 ≤ contention busy)%nat
  ∧ ∃ message,
      fst (runTransaction 5 "folder1" (toggleUpdate photoA) busy emptyWorld)
      = Aborted message
      ∧ toggleFavoriteInFirestore 5 configured "folder1" photoA busy emptyWorld
        = (Resolved tt,
           {| docs := theirWrites 5 "folder1" busy (docs emptyWorld);
              ops := ops emptyWorld ++ reads 5 "folder1";
              listeners := listeners emptyWorld;
              nextListener := nextListener emptyWorld;
              console :=
                console emptyWorld ++
                [("Error updating favorites in Firestore transaction: "
                  ++ message)%string] |})
      ∧ ∀ s id,
          fst (GalleryView.toggleFavorite 5 configured s id busy emptyWorld)
          = (Resolved tt, s).
Proof.
  assert (is_Some (db configured)) as Hdb by (by eexists).
  assert (5 ≤ contention busy)%nat as Hle by (cbn; lia).
  split; [exact Hdb|]. split; [exact Hle|].
  exact (toggleFavorite_contended_resolves 5 configured "folder1" photoA busy
           emptyWorld Hdb Hle).
Defined.

Lemma unconfigured_store_is_inert_witness :
  db unconfigured = None
  ∧ (∀ folderId w,
       snd (onFavoritesChange unconfigured folderId w) = w
       ∧ ∀ w', fst (onFavoritesChange unconfigured folderId w) w' = w')
  ∧ (∀ folderId file others w,
       toggleFavoriteInFirestore 5 unconfigured folderId file others w
       = (Resolved tt, w)).
Proof.
  assert (db unconfigured = None) as Hdb by reflexivity.
  split; [exact Hdb|].
  exact (unconfigured_store_is_inert 5 unconfigured Hdb).
Defined.

Lemma favoritesOnly_is_ordered_restriction_witness :
  GalleryView.isFavoritesView picked = true
  ∧ NoDup (file_id <$> GalleryView.allItems picked)
  ∧ GalleryView.filteredItems picked = [photoA; clipC]
  ∧ length (GalleryView.filteredItems picked)
    = size (itemIds (GalleryView.allItems picked)
            ∩ favoriteIdsOf (GalleryView.favorites picked)).
Proof.
  assert (GalleryView.isFavoritesView picked = true) as Hview by reflexivity.
  assert (NoDup (file_id <$> GalleryView.allItems picked)) as Hnd.
  { cbn. repeat (apply NoDup_cons; split; [by compute_done|]). apply NoDup_nil_2. }
  split; [exact Hview|]. split; [exact Hnd|]. split; [reflexivity|].
  exact (proj2 (proj2 (proj2 (favoritesOnly_is_ordered_restriction picked Hview)))
           Hnd).
Defined.



Lemma toggleFavorite_unlisted_is_noop_witness :
("idZ" ∉ file_id <$> GalleryView.allItems picked)
  ∧ GalleryView.toggleFavorite 5 configured picked "idZ" [] emptyWorld
    = (Resolved tt, picked, emptyWorld).
Proof.
  assert ("idZ" ∉ (file_id <$> GalleryView.allItems picked)) as Hnin
    by (by compute_done).
  split; [exact Hnin|].
  exact (toggleFavorite_unlisted_is_noop 5 configured picked "idZ" []
           emptyWorld Hnin).
Defined.

Lemma detail_navigation_wraps_witness :
  0 ≤ DetailView.currentIndex lastIndex < 3
  ∧ DetailView.currentIndex
      (DetailView.handleNext [photoA; photoB; clipC] lastIndex) = 0
  ∧ DetailView.currentIndex
      (DetailView.handlePrev [photoA; photoB; clipC] lastIndex) = 1
  ∧ fst (DetailView.handle [photoA; photoB; clipC] (DetailView.KeyDown " ")
           lastIndex) = lastIndex.
Proof.
  assert (0 ≤ DetailView.currentIndex lastIndex < 3) as Hrange by (cbn; lia).
  destruct (detail_navigation_wraps [photoA; photoB; clipC] lastIndex)
    as ((_ & Hspace) & Hnav).
  destruct (Hnav Hrange) as (_ & _ & _ & _ & Hlast & _ & _ & Hprev).
  split; [exact Hrange|]. split; [exact (Hlast eq_refl)|].
  split; [|exact Hspace].
  assert (0 < DetailView.currentIndex lastIndex) as Hpos by (cbn; lia).
  exact (Hprev Hpos).
Defined.

Lemma getFiles_lists_every_page_witness :
  DriveService.apiKeyMissing "AIzaKey" = false
  ∧ HoldsPages twoPages "folder1" None [firstPage; secondPage]
  ∧ DriveService.getFiles "AIzaKey" twoPages 5 "folder1"
    = Some (Resolved [photoA; photoB; clipC], [None; Some "token1"]).
Proof.
  assert (DriveService.apiKeyMissing "AIzaKey" = false) as Hkey by reflexivity.
  assert (HoldsPages twoPages "folder1" None [firstPage; secondPage]) as Hholds.
  { apply holds_more; [reflexivity | reflexivity |].
    apply holds_last; reflexivity. }
  assert (length [firstPage; secondPage] ≤ 5)%nat as Hfuel by (cbn; lia).
  split; [exact Hkey|]. split; [exact Hholds|].
  exact (proj1 (proj1 (getFiles_lists_every_page twoPages "folder1" "AIzaKey"
                         Hkey)
                  [firstPage; secondPage] 5%nat Hholds Hfuel)).
Defined.

(** A refused second request: the listing rejects with the provider's
    message, and the first page's files are not returned. *)
Example getFiles_second_request_refused :
  DriveService.getFiles "AIzaKey" secondRefused 5 "folder1"
  = Some (Rejected "Rate limit exceeded", [None; Some "token1"]).
Proof. reflexivity. Qed.

(** A response whose [nextPageToken] is the empty string ends the loop like
    a response without one. *)
Example getFiles_empty_token_ends :
  DriveService.getFiles "AIzaKey"
    (fun _ _ => DriveService.Ok
                  (DriveService.mkFilesPage (Some [photoA]) (Some EmptyString)))
    5 "folder1"
  = Some (Resolved [photoA], [None]).
Proof. reflexivity. Qed.

(** Without an API key no request is sent. *)
Example getFiles_without_key :
  ∃ message,
    DriveService.getFiles "YOUR_API_KEY" twoPages 5 "folder1"
    = Some (Rejected message, []).
Proof. eexists. reflexivity. Qed.

(** * Further properties of the favorites store *)

Section SharedFavorites.

Variable maxAttempts : nat.

(** X1. After initialisation the exported flag and the handle agree: the flag
    is set exactly when [db] is defined, and a placeholder value in the
    configuration leaves both off whatever the SDK would have returned. *)
Theorem initialize_flag_matches_handle firebaseConfig sdk :
  (isFirebaseConfigured (initialize firebaseConfig sdk) = true
   ↔ is_Some (db (initialize firebaseConfig sdk)))
  ∧ (Exists (fun value => includes "YOUR_" value = true) firebaseConfig →
     db (initialize firebaseConfig sdk) = None
     ∧ isFirebaseConfigured (initialize firebaseConfig sdk) = false).
Proof.
  split.
  - unfold initialize. destruct (existsb _ _), sdk; cbn; split;
      (done || (by intros [? [=]]) || (by eexists) || idtac).
  - intros Hplaceholder. unfold initialize.
    assert (existsb (includes "YOUR_") firebaseConfig = true) as ->; [|done].
    apply existsb_exists. apply Exists_exists in Hplaceholder as (value & Hin & Hinc).
    exists value. split; [by apply list_elem_of_In | done].
Qed.

(** Toggling a file flips the membership of its id in the set of favorited
    ids and of no other id. *)
Lemma newFavorites_membership current file x :
  x ∈ favoriteIdsOf (newFavorites current file)
  ↔ (x = file_id file ∧ x ∉ favoriteIdsOf current)
    ∨ (x ≠ file_id file ∧ x ∈ favoriteIdsOf current).
Proof.
  assert (file_id file ∈ favoriteIdsOf current
          ↔ file_id file ∈ fav_id <$> current) as Hids
    by (unfold favoriteIdsOf; apply elem_of_list_to_set).
  destruct (decide (file_id file ∈ fav_id <$> current)) as [Hin|Hnin].
  - rewrite newFavorites_present by done. rewrite favoriteIdsOf_filter.
    rewrite elem_of_difference, not_elem_of_singleton.
    destruct (decide (x = file_id file)) as [->|Hne]; tauto.
  - rewrite newFavorites_absent by done. unfold favoriteIdsOf at 1.
    rewrite fmap_app, list_to_set_app_L, elem_of_union. cbn.
    rewrite elem_of_union, elem_of_singleton, elem_of_empty.
    fold (favoriteIdsOf current).
    destruct (decide (x = file_id file)) as [->|Hne]; tauto.
Qed.

(** X2. No lost update: when another session commits its toggle of [b] while
    this session's transaction for [a] is in its first attempt, the retry
    reads the other session's write, and the document ends with both
    toggles applied to the set of favorited ids. *)
Theorem concurrent_toggles_both_applied svc folderId a b w :
  is_Some (db svc) →
  (1 < maxAttempts)%nat →
  file_id a ≠ file_id b →
  let before := favoriteIds (docs w !! folderId) in
  let theirs := toggleUpdate b (docs w !! folderId) in
  let w' :=
    snd (toggleFavoriteInFirestore maxAttempts svc folderId a [Some theirs] w) in
  ∀ x, x ∈ favoriteIds (docs w' !! folderId)
       ↔ ((x = file_id a ∨ x = file_id b) ∧ x ∉ before)
         ∨ (x ≠ file_id a ∧ x ≠ file_id b ∧ x ∈ before).
Proof.
  intros Hdb Hmax Hne before theirs w' x. subst w'.
  rewrite toggleFavoriteInFirestore_commits by (cbn; done || lia).
  destruct maxAttempts as [|n]; [lia|]. cbn.
  rewrite theirWrites_nil, !lookup_insert_eq. unfold favoriteIds.
  cbn -[favoriteIdsOf]. rewrite !newFavorites_membership.
  subst before. unfold favoriteIds.
  destruct (decide (x = file_id a)) as [Hxa|Hxa];
    destruct (decide (x = file_id b)) as [Hxb|Hxb]; try congruence; tauto.
Qed.

(** X3. The order in which two files are toggled does not matter for the set
    of favorited ids the collection holds for the folder afterwards: for
    files of different ids it is the set held before with the membership of
    each of the two ids flipped, and for files of the same id it is the set
    held before. *)
Theorem toggles_commute svc folderId a b w :
  is_Some (db svc) →
  (0 < maxAttempts)%nat →
  let toggle file world :=
    snd (toggleFavoriteInFirestore maxAttempts svc folderId file [] world) in
  let before := storedIds (docs w) folderId in
  storedIds (docs (toggle b (toggle a w))) folderId
  = storedIds (docs (toggle a (toggle b w))) folderId
  ∧ (file_id a ≠ file_id b →
     ∀ x, x ∈ storedIds (docs (toggle b (toggle a w))) folderId
          ↔ ((x = file_id a ∨ x = file_id b) ∧ x ∉ before)
            ∨ (x ≠ file_id a ∧ x ≠ file_id b ∧ x ∈ before))
  ∧ (file_id a = file_id b →
     storedIds (docs (toggle b (toggle a w))) folderId = before).
Proof.
  intros Hdb Hmax toggle before.
  assert (∀ first second,
            storedIds (docs (toggle second (toggle first w))) folderId
            = favoriteIdsOf
                (newFavorites
                   (newFavorites (storedFavorites (docs w) folderId) first)
                   second)) as Hboth.
  { intros first second. subst toggle. cbn beta.
    rewrite !toggleFavoriteInFirestore_commits by (cbn; done || lia).
    cbn [snd docs]. rewrite !theirWrites_nil. unfold toggleUpdate, storedIds.
    rewrite storedFavorites_insert, !currentFavorites_stored.
    by rewrite storedFavorites_insert. }
  assert (before = favoriteIdsOf (storedFavorites (docs w) folderId))
    as Hbefore by done.
  clearbody before toggle. subst before.
  split; [|split].
  - rewrite !Hboth. apply set_eq. intros x.
    rewrite !newFavorites_membership.
    destruct (decide (x = file_id a)) as [Hxa|Hxa];
      destruct (decide (x = file_id b)) as [Hxb|Hxb]; tauto.
  - intros Hne x. rewrite Hboth, !newFavorites_membership.
    destruct (decide (x = file_id a)) as [Hxa|Hxa];
      destruct (decide (x = file_id b)) as [Hxb|Hxb]; try congruence; tauto.
  - intros Heq. rewrite Hboth. apply set_eq. intros x.
    rewrite !newFavorites_membership, Heq.
    destruct (decide (x = file_id b)) as [Hxb|Hxb];
      destruct (decide (x ∈ favoriteIdsOf (storedFavorites (docs w) folderId)));
      tauto.
Qed.

(** X4. With distinct ids stored, a toggle changes the number of entries by
    exactly one: un-favoriting removes a single entry. *)
Theorem newFavorites_length current file :
  NoDup (fav_id <$> current) →
  (file_id file ∈ (fav_id <$> current) →
   S (length (newFavorites current file)) = length current)
  ∧ (file_id file ∉ (fav_id <$> current) →
     length (newFavorites current file) = S (length current)).
Proof.
  intros Hnd. split.
  - intros Hin. rewrite newFavorites_present by done.
    induction current as [|fav current IH]; [by apply elem_of_nil in Hin|].
    rewrite fmap_cons in Hnd, Hin. apply NoDup_cons in Hnd as [Hfresh Hnd].
    cbn. unfold otherThan at 1.
    destruct (String.eqb_spec (fav_id fav) (file_id file)) as [Heq|Hneq]; cbn.
    + rewrite filter_otherThan_absent; [done|]. by rewrite <- Heq.
    + apply elem_of_cons in Hin as [Heq|Hin]; [congruence|].
      by rewrite IH.
  - intros Hnin. rewrite newFavorites_absent by done.
    rewrite length_app. cbn. lia.
Qed.

End SharedFavorites.

(** * The favorites hook and the snapshot listener *)

Section FavoritesHook.

Import GalleryView.

Variable maxAttempts : nat.

Lemma find_listed (items : list DriveFile) id :
  id ∈ (file_id <$> items) →
  ∃ file,
    List.find (fun f => String.eqb (file_id f) id) items = Some file
    ∧ file_id file = id.
Proof.
  induction items as [|item items IH]; [by intros ?%elem_of_nil|].
  rewrite fmap_cons, elem_of_cons. intros Hin. cbn.
  destruct (String.eqb_spec (file_id item) id) as [Heq|Hne].
  - by exists item.
  - destruct Hin as [Heq|Hin]; [congruence | by apply IH].
Qed.

Lemma toggleFavorite_listed svc (s : State) folder id w :
  isFirebaseConfigured svc = true →
  folderId s = Some folder →
  folder ≠ EmptyString →
  id ∈ (file_id <$> allItems s) →
  ∃ file,
    file_id file = id
    ∧ toggleFavorite maxAttempts svc s id [] w
      = (fst (toggleFavoriteInFirestore maxAttempts svc folder file [] w), s,
         snd (toggleFavoriteInFirestore maxAttempts svc folder file [] w)).
Proof.
  intros Hflag Hfolder Hne Hin.
  destruct (find_listed _ _ Hin) as (file & Hfind & Hid).
  exists file. split; [done|].
  unfold toggleFavorite. rewrite Hfolder, Hflag, Hfind.
  destruct folder; [done|]. cbn.
  by destruct (toggleFavoriteInFirestore _ _ _ _ _ _).
Qed.

(** X5. With the store configured, toggling a listed id from the gallery and
    then receiving the snapshot of the document flips whether that id is
    shown as favorited, relative to what the document held, and changes it
    for no other id. *)
Theorem toggle_then_snapshot_flips_heart svc (s : State) folder id w :
  isFirebaseConfigured svc = true →
  is_Some (db svc) →
  (0 < maxAttempts)%nat →
  folderId s = Some folder →
  folder ≠ EmptyString →
  id ∈ (file_id <$> allItems s) →
  let remote := snapshotFavorites (docs w !! folder) in
  let result := toggleFavorite maxAttempts svc s id [] w in
  let shown := favorites (snapshotDelivered folder (snd result) (snd (fst result))) in
  isFavorited shown id = negb (isFavorited remote id)
  ∧ ∀ other, other ≠ id → isFavorited shown other = isFavorited remote other.
Proof.
  intros Hflag Hdb Hmax Hfolder Hne Hin remote result shown.
  destruct (toggleFavorite_listed svc s folder id w Hflag Hfolder Hne Hin)
    as (file & Hid & Hrun).
  subst shown result. rewrite Hrun. cbn [fst snd].
  rewrite toggleFavoriteInFirestore_commits by (cbn; done || lia).
  cbn [snd docs snapshotDelivered setFavorites favorites].
  rewrite theirWrites_nil, lookup_insert_eq.
  change (snapshotFavorites (Some (toggleUpdate file (docs w !! folder))))
    with (newFavorites remote file).
  split; [|intros other Hother]; rewrite !isFavorited_bool_decide;
    repeat case_bool_decide; cbn; try done; exfalso;
    match goal with
    | H : _ ∈ favoriteIdsOf (newFavorites _ _) |- _ =>
        apply newFavorites_membership in H
    | H : _ ∉ favoriteIdsOf (newFavorites _ _) |- _ =>
        rewrite newFavorites_membership in H
    end; subst id; tauto.
Qed.

End FavoritesHook.

(** * Further properties of the media listing *)

Section ListingEdges.

Import DriveService.

Variable provider : Provider.
Variable folderId : string.

Lemma prefix_app (p s : string) :
  String.prefix p s = true ↔ ∃ rest, s = (p ++ rest)%string.
Proof.
  revert s. induction p as [|a p IH]; intros s.
  - destruct s; cbn; split; eauto.
  - destruct s as [|b s]; cbn.
    + split; [done | by intros [rest [=]]].
    + destruct (ascii_dec a b) as [->|Hne].
      * rewrite IH. split; intros [rest Hrest]; exists rest.
        -- by rewrite Hrest.
        -- by injection Hrest.
      * split; [done | intros [rest [= ? ?]]; congruence].
Qed.

Lemma apiKeyMissing_true (API_KEY : string) :
  apiKeyMissing API_KEY = true
  ↔ API_KEY = EmptyString ∨ ∃ rest, API_KEY = ("YOUR_" ++ rest)%string.
Proof.
  unfold apiKeyMissing, startsWith. rewrite orb_true_iff, prefix_app.
  destruct API_KEY; cbn; split; intros [?|?]; (done || eauto).
Qed.

Lemma fetchPages_sends fuel :
  ∀ pageToken allFiles requests outcome requests',
    fetchPages fuel provider folderId pageToken allFiles requests
    = Some (outcome, requests') →
    (length requests < length requests')%nat.
Proof.
  induction fuel as [|fuel IH];
    intros pageToken allFiles requests outcome requests' Hrun; [done|].
  cbn [fetchPages] in Hrun.
  destruct (provider folderId _) as [message|statusText errorMessage|message|page].
  1-3: injection Hrun as <- <-; rewrite length_app; cbn; lia.
  destruct (truthy (nextPageToken page)).
  - apply IH in Hrun. rewrite length_app in Hrun. cbn in Hrun. lia.
  - injection Hrun as <- <-. rewrite length_app. cbn. lia.
Qed.

(** X7. [getFiles] rejects without having sent a request exactly when the API
    key is empty or starts with [YOUR_]. *)
Theorem getFiles_no_request_iff_key_missing (API_KEY : string) (fuel : nat) :
  (∃ message,
     getFiles API_KEY provider fuel folderId = Some (Rejected message, []))
  ↔ API_KEY = EmptyString ∨ ∃ rest, API_KEY = ("YOUR_" ++ rest)%string.
Proof.
  rewrite <- apiKeyMissing_true. unfold getFiles.
  destruct (apiKeyMissing API_KEY); split; try done.
  - intros _. by eexists.
  - intros [message Hrun]. apply fetchPages_sends in Hrun. cbn in Hrun. lia.
Qed.

(** X8. A provider that answers every request with a continuation token keeps
    the loop going: no number of iterations brings [getFiles] to an end. *)
Theorem getFiles_endless_tokens (API_KEY : string) :
  apiKeyMissing API_KEY = false →
  (∀ param, ∃ page,
     provider folderId param = Ok page ∧ truthy (nextPageToken page) = true) →
  ∀ fuel, getFiles API_KEY provider fuel folderId = None.
Proof.
  intros Hkey Hmore fuel. unfold getFiles. rewrite Hkey.
  generalize (@None string) ([] : list DriveFile) ([] : list (option string)).
  induction fuel as [|fuel IH]; intros pageToken allFiles requests; [done|].
  cbn [fetchPages].
  destruct (Hmore (if truthy pageToken then pageToken else None))
    as (page & -> & ->).
  apply IH.
Qed.

(** Once [getFiles] comes to an end within some number of iterations, more
    room does not change what it returns or what it sends. *)
Lemma fetchPages_stable fuel :
  ∀ fuel' pageToken allFiles requests result,
    fetchPages fuel provider folderId pageToken allFiles requests = Some result →
    (fuel ≤ fuel')%nat →
    fetchPages fuel' provider folderId pageToken allFiles requests = Some result.
Proof.
  induction fuel as [|fuel IH];
    intros fuel' pageToken allFiles requests result Hrun Hle; [done|].
  destruct fuel' as [|fuel']; [lia|].
  cbn [fetchPages] in *.
  destruct (provider folderId _) as [| | |page]; try done.
  destruct (truthy (nextPageToken page)); [|done].
  apply IH; [done | lia].
Qed.

Theorem getFiles_stable (API_KEY : string) fuel fuel' result :
  getFiles API_KEY provider fuel folderId = Some result →
  (fuel ≤ fuel')%nat →
  getFiles API_KEY provider fuel' folderId = Some result.
Proof.
  unfold getFiles. destruct (apiKeyMissing API_KEY); [done|].
  apply fetchPages_stable.
Qed.

End ListingEdges.

(** * Further properties of the gallery view *)

Section GalleryLoading.

Import GalleryView DriveService.

(** X9. Loading the gallery is all or nothing. With an API key configured and a
    folder id in the route: when the provider holds the folder's pages, the
    component ends up with all their files, no error and the loading flag
    down; when a request fails, the items it had are kept, the error's
    message is stored and the loading flag is down. Without a folder id
    nothing is requested and the state, loading flag included, stays as it
    is. *)
Theorem fetchGalleryData_all_or_nothing (API_KEY : string) (provider : Provider)
    (fuel : nat) (s : State) :
  apiKeyMissing API_KEY = false →
  (∀ folder pages,
     folderId s = Some folder → folder ≠ EmptyString →
     HoldsPages provider folder None pages →
     (length pages ≤ fuel)%nat →
     ∃ s',
       fetchGalleryData API_KEY provider fuel s
       = Some (s', None :: continuations pages)
       ∧ allItems s' = List.concat (pageFiles <$> pages)
       ∧ error s' = None ∧ isLoading s' = false)
  ∧ (∀ folder fetched message,
       folderId s = Some folder → folder ≠ EmptyString →
       FailsAfter provider folder None fetched message →
       (length fetched < fuel)%nat →
       ∃ s',
         fetchGalleryData API_KEY provider fuel s
         = Some (s', None :: (nextPageToken <$> fetched))
         ∧ allItems s' = allItems s
         ∧ error s' = Some message ∧ isLoading s' = false)
  ∧ (truthy (folderId s) = false →
     fetchGalleryData API_KEY provider fuel s = Some (s, [])).
Proof.
  intros Hkey. split; [|split].
  - intros folder pages Hfolder Hne Hholds Hfuel.
    unfold fetchGalleryData, getFiles. rewrite Hfolder, Hkey.
    destruct folder; [done|]. cbn [truthy].
    rewrite (fetchPages_holds provider _ pages fuel None [] []) by done.
    eexists. split; [reflexivity|]. by cbn.
  - intros folder fetched message Hfolder Hne Hfails Hfuel.
    unfold fetchGalleryData, getFiles. rewrite Hfolder, Hkey.
    destruct folder; [done|]. cbn [truthy].
    rewrite (fetchPages_fails provider _ fetched fuel None [] [] message)
      by done.
    eexists. split; [reflexivity|]. by cbn.
  - intros Hnone. unfold fetchGalleryData. by rewrite Hnone.
Qed.

End GalleryLoading.

Section Pages.

Import GalleryView.

Lemma filteredItems_setCurrentPage p (s : State) :
  filteredItems (setCurrentPage p s) = filteredItems s.
Proof. reflexivity. Qed.


Lemma concat_chunks {A : Type} (c k : nat) :
  ∀ l : list A,
    (length l ≤ c * k)%nat →
    List.concat ((fun i : nat => take c (drop (c * i) l)) <$> seq 0 k) = l.
Proof.
  induction k as [|k IH]; intros l Hlen.
  - destruct l; [done | cbn in Hlen; lia].
  - rewrite <- cons_seq, fmap_cons. cbn [List.concat].
    rewrite Nat.mul_0_r, drop_0, <- fmap_S_seq, <- list_fmap_compose.
    transitivity (take c l ++ drop c l); [|apply take_drop]. f_equal.
    rewrite <- (IH (drop c l)) at 1 by (rewrite length_drop; lia).
    f_equal. apply list_fmap_ext. intros _ i _. cbn.
    rewrite drop_drop. do 2 f_equal. lia.
Qed.

(** X10. The pages partition the filtered sequence: the visible items of pages
    1, 2, ..., [totalPages], one after the other, are the filtered items,
    each once and in order. *)
Theorem pages_partition_filteredItems (s : State) :
  List.concat
    ((fun p => visibleItems (setCurrentPage p s)) <$> seqZ 1 (totalPages s))
  = filteredItems s.
Proof.
  pose proof (totalPages_bounds s) as [_ Hupper]. unfold ITEMS_PER_PAGE in Hupper.
  unfold seqZ. rewrite <- list_fmap_compose.
  etrans; [|apply (concat_chunks 50 (Z.to_nat (totalPages s))); lia].
  f_equal. apply list_fmap_ext. intros _ i _. cbn.
  unfold visibleItems. cbn [currentPage setCurrentPage].
  rewrite filteredItems_setCurrentPage.
  rewrite slice_from_nonneg by (unfold ITEMS_PER_PAGE; lia).
  unfold ITEMS_PER_PAGE.
  replace (Z.to_nat ((Z.of_nat i + 1 - 1) * 50)) with (50 * i)%nat by lia.
  done.
Qed.

(** X11. Every page before the last holds 50 items, the last page holds the
    remaining one to 50, and a page index past the last page shows
    nothing. *)
Theorem page_sizes (s : State) :
  1 ≤ currentPage s →
  let count := Z.of_nat (length (filteredItems s)) in
  (currentPage s < totalPages s → length (visibleItems s) = 50%nat)
  ∧ (currentPage s = totalPages s →
     Z.of_nat (length (visibleItems s)) = count - 50 * (totalPages s - 1)
     ∧ (1 ≤ length (visibleItems s) ≤ 50)%nat)
  ∧ (totalPages s < currentPage s → visibleItems s = []).
Proof.
  intros Hpage count.
  pose proof (totalPages_bounds s) as Hb. fold count in Hb.
  pose proof (visibleItems_length s Hpage) as Hlen. fold count in Hlen.
  unfold ITEMS_PER_PAGE in *.
  split; [|split].
  - intros Hbefore. lia.
  - intros Hlast. lia.
  - intros Hpast. apply length_zero_iff_nil. lia.
Qed.

End Pages.

Section GalleryEvents.

Import GalleryView.





(** *** Opening the detail view *)

Lemma findIndexFrom_first {A : Type} (f : A → bool) (l : list A) :
  ∀ (i : Z) (k : nat) x,
    l !! k = Some x → f x = true →
    (∀ (j : nat) y, (j < k)%nat → l !! j = Some y → f y = false) →
    findIndexFrom f l i = i + Z.of_nat k.
Proof.
  induction l as [|y l IH]; intros i k x Hk Hx Hbefore; [done|].
  destruct k as [|k]; cbn in *.
  - injection Hk as ->. rewrite Hx. lia.
  - rewrite (Hbefore O y) by (done || lia).
    rewrite (IH (i + 1) k x); [lia | done | done |].
    intros j z Hj Hz. apply (Hbefore (S j) z); [lia | done].
Qed.

(** X14. On a page index of at least 1 and with distinct ids in the filtered
    sequence, clicking the [k]-th visible item opens the detail view at
    index [(currentPage - 1) * 50 + k] of the filtered sequence, which is
    the clicked item. *)
Theorem handleOpenDetailView_opens_clicked (s : State) (k : nat) clicked :
  1 ≤ currentPage s →
  NoDup (file_id <$> filteredItems s) →
  visibleItems s !! k = Some clicked →
  let index := (currentPage s - 1) * ITEMS_PER_PAGE + Z.of_nat k in
  handleOpenDetailView k s = Some (setDetailViewIndex (Some index) s)
  ∧ DetailView.itemAt (filteredItems s) index = Some clicked.
Proof.
  intros Hpage Hnd Hvisible index.
  pose proof Hvisible as Hfiltered.
  rewrite visibleItems_lookup in Hfiltered by done.
  destruct (decide (Z.of_nat k < ITEMS_PER_PAGE)) as [Hk|]; [|done].
  unfold ITEMS_PER_PAGE in *.
  set (position := (Z.to_nat ((currentPage s - 1) * 50) + k)%nat) in *.
  assert (index = Z.of_nat position) as Hindex by (subst index position; lia).
  clearbody index. subst index.
  split.
  - unfold handleOpenDetailView. rewrite Hvisible. do 2 f_equal.
    unfold findIndex.
    rewrite (findIndexFrom_first _ _ 0 position clicked);
      [by rewrite Z.add_0_l | done | |].
    + apply String.eqb_refl.
    + intros j y Hj Hy. apply String.eqb_neq. intros Heq.
      assert (j = position); [|lia].
      eapply NoDup_lookup; [exact Hnd | |].
      * rewrite list_lookup_fmap, Hy. cbn. by rewrite Heq.
      * by rewrite list_lookup_fmap, Hfiltered.
  - unfold DetailView.itemAt.
    destruct (Z.of_nat position <? 0) eqn:Hneg; [lia|].
    by rewrite Nat2Z.id.
Qed.

(** *** Export *)

Lemma splitOn_free sep (line : string) :
  freeOf sep line = true → splitOn sep line = [line].
Proof.
  induction line as [|c line IH]; [done|]. cbn [splitOn freeOf].
  destruct (Ascii.eqb c sep); [done|]. cbn [negb andb].
  intros Hfree. by rewrite IH.
Qed.

Lemma splitOn_app sep (line rest : string) :
  freeOf sep line = true →
  splitOn sep (line ++ String sep rest) = line :: splitOn sep rest.
Proof.
  induction line as [|c line IH].
  - change (EmptyString ++ String sep rest)%string with (String sep rest).
    cbn [splitOn]. by rewrite Ascii.eqb_refl.
  - change (String c line ++ String sep rest)%string
      with (String c (line ++ String sep rest)).
    cbn [splitOn freeOf].
    destruct (Ascii.eqb c sep); [done|]. cbn [negb andb].
    intros Hfree. by rewrite IH.
Qed.

Lemma concat_two (sep line next : string) (lines : list string) :
  String.concat sep (line :: next :: lines)
  = (line ++ sep ++ String.concat sep (next :: lines))%string.
Proof. reflexivity. Qed.

Lemma append_single (c : ascii) (rest : string) :
  (String c EmptyString ++ rest)%string = String c rest.
Proof. reflexivity. Qed.

Lemma splitOn_concat sep (lines : list string) :
  lines ≠ [] →
  Forall (fun line => freeOf sep line = true) lines →
  splitOn sep (String.concat (String sep EmptyString) lines) = lines.
Proof.
  intros Hne Hfree. induction Hfree as [|line lines Hline Hlines IH]; [done|].
  destruct lines as [|next lines].
  - by apply splitOn_free.
  - rewrite concat_two, append_single, splitOn_app by done. by rewrite IH.
Qed.

(** X15. Exporting with no favorites only shows a toast. Otherwise a file named
    after the client is offered whose text, when no favorite's name holds a
    line break, splits at the line breaks into exactly the favorites' names
    in their stored order. *)
Theorem exportFavorites_lists_names (decodedClientName : string) (s : State) :
  (favorites s = [] →
   exportFavorites decodedClientName s
   = NothingToExport "No favorites to export.")
  ∧ (favorites s ≠ [] →
     ∃ content,
       exportFavorites decodedClientName s
       = Download ("favorites_" ++ decodedClientName ++ ".txt")%string content
           "Favorites list exported."
       ∧ (Forall (fun fav => freeOf newline (fav_name fav) = true) (favorites s) →
          splitOn newline content = List.map fav_name (favorites s))).
Proof.
  unfold exportFavorites. split.
  - by intros ->.
  - intros Hne. destruct (favorites s) as [|fav favs] eqn:Hfavs; [done|].
    cbn [length Nat.eqb]. eexists. split; [reflexivity|].
    intros Hfree. apply splitOn_concat; [done|].
    apply Forall_forall. intros line Hin.
    apply list_elem_of_In, in_map_iff in Hin as (fav' & <- & Hin).
    rewrite Forall_forall in Hfree. by apply Hfree, list_elem_of_In.
Qed.

End GalleryEvents.

(** * Further properties of the detail view *)

Section ViewerNavigation.

Import DetailView.

Lemma handle_in_range (items : list DriveFile) e (s : State) :
  0 ≤ currentIndex s < Z.of_nat (length items) →
  thumbnailExists items e →
  0 ≤ currentIndex (fst (handle items e s)) < Z.of_nat (length items).
Proof.
  intros Hrange Hthumb.
  assert (0 ≤ currentIndex (handlePrev items s) < Z.of_nat (length items))
    as Hprev.
  { unfold handlePrev. rewrite setCurrentIndex_index. unfold prevUpdater.
    destruct (currentIndex s >? 0) eqn:Hgt; lia. }
  assert (0 ≤ currentIndex (handleNext items s) < Z.of_nat (length items))
    as Hnext.
  { unfold handleNext. rewrite setCurrentIndex_index. unfold nextUpdater.
    destruct (currentIndex s <? Z.of_nat (length items) - 1) eqn:Hlt; lia. }
  destruct e as [key| | | | |index]; cbn; try done.
  - unfold handleKeyDown.
    repeat (match goal with |- context [String.eqb ?a ?b] =>
                              destruct (String.eqb a b) end); done.
  - rewrite setCurrentIndex_index. cbn in Hthumb. lia.
Qed.

(** The hook's [toggleFavorite] calls no state setter. *)
Lemma toggleFavorite_state maxAttempts svc (g : GalleryView.State) id others w :
  snd (fst (GalleryView.toggleFavorite maxAttempts svc g id others w)) = g.
Proof.
  unfold GalleryView.toggleFavorite.
  destruct (GalleryView.folderId g) as [folder|]; [|done].
  destruct (_ || _); [done|].
  destruct (List.find _ _) as [found|]; [|done].
  by destruct (toggleFavoriteInFirestore _ _ _ _ _ _).
Qed.

Lemma callBack_keeps maxAttempts svc others callbacks gw :
  let gw' := foldl (callBack maxAttempts svc others) gw callbacks in
  GalleryView.isFavoritesView (fst gw') = GalleryView.isFavoritesView (fst gw)
  ∧ GalleryView.allItems (fst gw') = GalleryView.allItems (fst gw).
Proof.
  revert gw. induction callbacks as [|c callbacks IH]; intros gw; [done|].
  cbn. destruct (IH (callBack maxAttempts svc others gw c)) as [Hview Hitems].
  rewrite Hview, Hitems. destruct c as [|id]; cbn; [done|].
  by rewrite toggleFavorite_state.
Qed.

Lemma reaches_thumbnailExists (items : list DriveFile) (v : State) e :
  reaches items v e = true → thumbnailExists items e.
Proof.
  destruct e as [key| | | | |index]; cbn; try done.
  destruct (currentItem items v); [|done].
  intros Hlt. by apply Nat.ltb_lt in Hlt.
Qed.

(** X16. With the viewer open over the all-items view and its index inside
    the item sequence: through any run of key presses, button and thumbnail
    clicks in the viewer (the favorite toggles they start and the closing
    of the viewer included) and of favorites snapshots reaching the
    gallery, the viewer's items stay the listed items and its index stays
    inside them, so it always has a current item to render. *)
Theorem detail_index_stays_in_range maxAttempts svc
    (events : list SessionEvent) (m : Session) :
  GalleryView.isFavoritesView (galleryView m) = false →
  0 ≤ currentIndex (detailView m)
    < Z.of_nat (length (GalleryView.allItems (galleryView m))) →
  let m' := foldl (sessionStep maxAttempts svc) m events in
  let items' := GalleryView.filteredItems (galleryView m') in
  items' = GalleryView.allItems (galleryView m)
  ∧ 0 ≤ currentIndex (detailView m') < Z.of_nat (length items')
  ∧ is_Some (currentItem items' (detailView m')).
Proof.
  intros Hview Hrange m' items'.
  assert (GalleryView.isFavoritesView (galleryView m') = false
          ∧ GalleryView.allItems (galleryView m')
            = GalleryView.allItems (galleryView m)
          ∧ 0 ≤ currentIndex (detailView m')
              < Z.of_nat (length (GalleryView.allItems (galleryView m))))
    as (Hview' & Hitems' & Hrange').
  { subst m'. clear items'.
    remember (GalleryView.allItems (galleryView m)) as listed eqn:Hlisted.
    assert (GalleryView.allItems (galleryView m) = listed) as Hsame by done.
    clear Hlisted. revert m Hview Hsame Hrange.
    induction events as [|ev events IH]; intros m Hview Hsame Hrange; [done|].
    cbn [foldl]. apply IH; clear IH.
    - destruct ev as [e others|favs]; cbn; [|done].
      destruct (GalleryView.detailViewIndex (galleryView m)); [|done].
      destruct (reaches _ _ e); [|done]. cbn.
      destruct (callBack_keeps maxAttempts svc others
                  (snd (handle (GalleryView.filteredItems (galleryView m)) e
                          (detailView m)))
                  (galleryView m, world m)) as [Hkept _].
      by rewrite Hkept.
    - destruct ev as [e others|favs]; cbn; [|done].
      destruct (GalleryView.detailViewIndex (galleryView m)); [|done].
      destruct (reaches _ _ e); [|done]. cbn.
      destruct (callBack_keeps maxAttempts svc others
                  (snd (handle (GalleryView.filteredItems (galleryView m)) e
                          (detailView m)))
                  (galleryView m, world m)) as [_ Hkept].
      by rewrite Hkept.
    - destruct ev as [e others|favs]; cbn; [|done].
      destruct (GalleryView.detailViewIndex (galleryView m)); [|done].
      destruct (reaches _ _ e) eqn:Hreaches; [|done]. cbn.
      unfold GalleryView.filteredItems in *. rewrite Hview in *.
      rewrite Hsame in *.
      apply handle_in_range; [done|]. by eapply reaches_thumbnailExists. }
  assert (items' = GalleryView.allItems (galleryView m)) as Hshown.
  { subst items'. unfold GalleryView.filteredItems. by rewrite Hview'. }
  clearbody items' m'. subst items'.
  split; [done|]. split; [done|].
  unfold currentItem, itemAt.
  destruct (currentIndex (detailView m') <? 0) eqn:Hneg; [lia|].
  apply lookup_lt_is_Some. lia.
Qed.

(** X17. For an index inside the item sequence, the two indices the effect
    preloads are the ones Next and Previous lead to. *)
Theorem preload_targets_are_neighbours (len i : Z) :
  0 ≤ i < len →
  nextIndex len i = Some (nextUpdater len i)
  ∧ prevIndex len i = Some (prevUpdater len i).
Proof.
  intros Hrange. unfold nextIndex, prevIndex, nextUpdater, prevUpdater.
  destruct (len =? 0) eqn:Hzero; [lia|]. split; f_equal.
  - destruct (i <? len - 1) eqn:Hlt.
    + apply Z.rem_small. lia.
    + replace (i + 1) with len by lia. apply Z.rem_same. lia.
  - rewrite Z.rem_mod_nonneg by lia.
    destruct (i >? 0) eqn:Hgt.
    + replace (i - 1 + len) with (i - 1 + 1 * len) by lia.
      rewrite Z.mod_add by lia. apply Z.mod_small. lia.
    + replace (i - 1 + len) with (len - 1) by lia. apply Z.mod_small. lia.
Qed.

(** X18. Next and Previous undo each other on every index inside the item
    sequence. *)
Theorem next_prev_round_trip (items : list DriveFile) (s : State) :
  0 ≤ currentIndex s < Z.of_nat (length items) →
  currentIndex (handlePrev items (handleNext items s)) = currentIndex s
  ∧ currentIndex (handleNext items (handlePrev items s)) = currentIndex s.
Proof.
  intros Hrange. unfold handlePrev, handleNext.
  rewrite !setCurrentIndex_index. unfold prevUpdater, nextUpdater.
  split.
  - destruct (currentIndex s <? Z.of_nat (length items) - 1) eqn:Hlt.
    + destruct (currentIndex s + 1 >? 0) eqn:Hgt; lia.
    + destruct (0 >? 0) eqn:Hgt; lia.
  - destruct (currentIndex s >? 0) eqn:Hgt.
    + destruct (currentIndex s - 1 <? Z.of_nat (length items) - 1) eqn:Hlt; lia.
    + destruct (Z.of_nat (length items) - 1 <? Z.of_nat (length items) - 1)
        eqn:Hlt; lia.
Qed.

End ViewerNavigation.

(** * The detail view over the favorites-only sequence *)

Section ViewerOverFavorites.

Import GalleryView.

Variable maxAttempts : nat.

Lemma list_filter_filter {A : Type} (f g : A → bool) (l : list A) :
  List.filter f (List.filter g l) = List.filter (fun x => g x && f x) l.
Proof.
  induction l as [|x l IH]; [done|]. cbn.
  destruct (g x); cbn; [|done]. destruct (f x); by rewrite IH.
Qed.

Lemma isFavorited_without favs id other :
  isFavorited (List.filter (otherThan id) favs) other
  = isFavorited favs other && negb (String.eqb other id).
Proof.
  rewrite !isFavorited_bool_decide, favoriteIdsOf_filter.
  destruct (String.eqb_spec other id) as [->|Hne];
    repeat case_bool_decide; cbn; try done; exfalso;
    match goal with
    | H : _ ∈ _ ∖ _ |- _ => apply elem_of_difference in H as [? ?]
    | H : _ ∉ _ ∖ _ |- _ => rewrite elem_of_difference in H
    end; rewrite ?not_elem_of_singleton, ?elem_of_singleton in *; tauto.
Qed.

Lemma filter_out_unique (l : list DriveFile) :
  ∀ (i : nat) x,
    NoDup (file_id <$> l) →
    l !! i = Some x →
    List.filter (fun item => negb (String.eqb (file_id item) (file_id x))) l
    = take i l ++ drop (S i) l.
Proof.
  induction l as [|y l IH]; intros i x Hnd Hi; [done|].
  rewrite fmap_cons in Hnd. apply NoDup_cons in Hnd as [Hfresh Hnd].
  destruct i as [|i]; cbn in *.
  - injection Hi as ->. rewrite String.eqb_refl. cbn.
    rewrite drop_0. clear IH Hnd.
    induction l as [|z l IH]; [done|]. cbn.
    rewrite fmap_cons, not_elem_of_cons in Hfresh. destruct Hfresh as [Hne Hfresh].
    destruct (String.eqb_spec (file_id z) (file_id x)) as [Heq|_];
      [congruence|]. cbn. by rewrite IH.
  - destruct (String.eqb_spec (file_id y) (file_id x)) as [Heq|_]; cbn.
    + exfalso. apply Hfresh. rewrite Heq.
      apply list_elem_of_fmap. exists x. split; [done|].
      by eapply list_elem_of_lookup_2.
    + by rewrite (IH i x).
Qed.

(** X19. In the favorites-only view with distinct item ids and the local
    favorites in step with the document: pressing space in the viewer on
    the item at index [i] asks to toggle that item, and once that toggle
    has committed and its snapshot has arrived the item is gone from the
    viewer's sequence while the index is still [i], so the viewer shows the
    item that followed it, and has no current item when there was none. *)
Theorem unfavoriting_current_shows_successor svc (g : State) folder w
    (i : nat) x (v : DetailView.State) :
  isFirebaseConfigured svc = true →
  is_Some (db svc) →
  (0 < maxAttempts)%nat →
  folderId g = Some folder →
  folder ≠ EmptyString →
  isFavoritesView g = true →
  NoDup (file_id <$> allItems g) →
  snapshotFavorites (docs w !! folder) = favorites g →
  filteredItems g !! i = Some x →
  DetailView.currentIndex v = Z.of_nat i →
  let items := filteredItems g in
  let result := toggleFavorite maxAttempts svc g (file_id x) [] w in
  let g' := snapshotDelivered folder (snd result) (snd (fst result)) in
  DetailView.handle items (DetailView.KeyDown " ") v
  = (v, [DetailView.OnToggleFavorite (file_id x)])
  ∧ filteredItems g' = take i items ++ drop (S i) items
  ∧ DetailView.currentItem (filteredItems g') v = items !! S i.
Proof.
  intros Hflag Hdb Hmax Hfolder Hnonempty Hview Hnd Hsync Hi Hv items result g'.
  assert (x ∈ allItems g ∧ isFavorited (favorites g) (file_id x) = true)
    as [Hlisted Hfav].
  { pose proof Hi as Hin. apply list_elem_of_lookup_2 in Hin.
    unfold filteredItems in Hin.
    rewrite Hview in Hin. apply list_elem_of_In, filter_In in Hin as [Hin Hfav].
    split; [by apply list_elem_of_In | done]. }
  change (items !! i = Some x) in Hi.
  assert (file_id x ∈ (file_id <$> allItems g)) as Hid
    by (apply list_elem_of_fmap; eauto).
  destruct (toggleFavorite_listed maxAttempts svc g folder (file_id x) w
              Hflag Hfolder Hnonempty Hid) as (file & Hfile & Hrun).
  assert (filteredItems g'
          = List.filter
              (fun item => negb (String.eqb (file_id item) (file_id x)))
              items) as Hfiltered.
  { subst g' result. rewrite Hrun. cbn [fst snd].
    rewrite toggleFavoriteInFirestore_commits by (cbn; done || lia).
    cbn [snd docs]. rewrite theirWrites_nil.
    unfold snapshotDelivered, filteredItems. cbn. rewrite Hview, lookup_insert_eq.
    change (snapshotFavorites (Some (toggleUpdate file (docs w !! folder))))
      with (newFavorites (snapshotFavorites (docs w !! folder)) file).
    rewrite Hsync, newFavorites_present.
    - subst items. unfold filteredItems. rewrite Hview, list_filter_filter.
      apply List.filter_ext. intros item. rewrite Hfile.
      apply isFavorited_without.
    - rewrite Hfile. apply isFavorited_true in Hfav.
      unfold favoriteIdsOf in Hfav. by apply elem_of_list_to_set in Hfav. }
  assert (NoDup (file_id <$> items)) as Hnd'.
  { eapply sublist_NoDup; [exact Hnd|]. apply fmap_sublist.
    subst items. unfold filteredItems. rewrite Hview.
    apply list_filter_sublist. }
  rewrite (filter_out_unique items i x Hnd' Hi) in Hfiltered.
  split; [|split; [done|]].
  - cbn. unfold DetailView.toggleCurrent, DetailView.itemAt. rewrite Hv.
    destruct (Z.of_nat i <? 0) eqn:Hneg; [lia|].
    by rewrite Nat2Z.id, Hi.
  - rewrite Hfiltered. unfold DetailView.currentItem, DetailView.itemAt.
    rewrite Hv. destruct (Z.of_nat i <? 0) eqn:Hneg; [lia|].
    rewrite Nat2Z.id.
    assert (i < length items)%nat as Hlen by (by eapply lookup_lt_Some).
    rewrite lookup_app_r by (rewrite length_take; lia).
    rewrite length_take, lookup_drop. f_equal. lia.
Qed.

End ViewerOverFavorites.

(** * Thumbnail sizes *)

Section ThumbnailSizes.

Lemma replaceSize_cons replacement c rest :
  replaceSize replacement (String c rest)
  = if sizeMarkerAt (String c rest)
    then (replacement ++ afterSizeMarker (String c rest))%string
    else String c (replaceSize replacement rest).
Proof. reflexivity. Qed.

Lemma sizeMarkerAt_cons c1 c2 rest :
  sizeMarkerAt (String c1 (String c2 rest))
  = Ascii.eqb c1 "="%char && Ascii.eqb c2 "s"%char && firstIsDigit rest.
Proof. destruct rest; cbn [sizeMarkerAt firstIsDigit]; by rewrite ?andb_false_r. Qed.

Lemma sizeMarkerAt_head c rest :
  sizeMarkerAt (String c rest) = true → c = "="%char.
Proof.
  destruct rest as [|c2 rest]; [done|]. rewrite sizeMarkerAt_cons.
  intros H. apply andb_true_iff in H as [H _]. apply andb_true_iff in H as [H _].
  by apply Ascii.eqb_eq in H.
Qed.

Lemma skipDigits_fixed s : firstIsDigit s = false → skipDigits s = s.
Proof. destruct s as [|c s]; [done|]. cbn. by intros ->. Qed.

Lemma skipDigits_first s : firstIsDigit (skipDigits s) = false.
Proof.
  induction s as [|c s IH]; [done|]. cbn [skipDigits].
  destruct (isDigit c) eqn:Hc; [done | by cbn].
Qed.

Lemma afterSizeMarker_first s : firstIsDigit (afterSizeMarker s) = false.
Proof. destruct s as [|c1 [|c2 s]]; [done | done | apply skipDigits_first]. Qed.

Lemma skipDigits_app digits rest :
  allDigits digits = true →
  skipDigits (digits ++ rest) = skipDigits rest.
Proof.
  induction digits as [|c digits IH]; [done|]. cbn [allDigits].
  intros H. apply andb_true_iff in H as [Hc Hdigits].
  change (String c digits ++ rest)%string with (String c (digits ++ rest)).
  cbn [skipDigits]. rewrite Hc. by apply IH.
Qed.

Lemma sized_first size :
  size ≠ EmptyString → allDigits size = true → firstIsDigit size = true.
Proof.
  destruct size as [|c size]; [done|]. cbn. intros _ H.
  by apply andb_true_iff in H as [? _].
Qed.

Lemma firstIsDigit_app size rest :
  size ≠ EmptyString → firstIsDigit (size ++ rest) = firstIsDigit size.
Proof. by destruct size. Qed.

Lemma replaceSize_marker size rest replacement :
  size ≠ EmptyString → allDigits size = true →
  replaceSize replacement ("=s" ++ size ++ rest)
  = (replacement ++ skipDigits rest)%string.
Proof.
  intros Hne Hdigits.
  change ("=s" ++ size ++ rest)%string
    with (String "=" (String "s" (size ++ rest))).
  rewrite replaceSize_cons, sizeMarkerAt_cons.
  rewrite firstIsDigit_app, sized_first by done.
  cbn [afterSizeMarker]. rewrite skipDigits_app by done. reflexivity.
Qed.

Lemma replaceSize_first size s :
  firstIsDigit s = false →
  firstIsDigit (replaceSize ("=s" ++ size) s) = false.
Proof.
  destruct s as [|c s]; [done|]. intros Hfirst.
  rewrite replaceSize_cons. by destruct (sizeMarkerAt (String c s)).
Qed.

Lemma replaceSize_keeps_no_marker size c rest :
  sizeMarkerAt (String c rest) = false →
  sizeMarkerAt (String c (replaceSize ("=s" ++ size) rest)) = false.
Proof.
  intros Hno. destruct rest as [|c2 rest]; [done|].
  rewrite replaceSize_cons.
  destruct (sizeMarkerAt (String c2 rest)) eqn:Hinner.
  - apply sizeMarkerAt_head in Hinner as ->.
    change (("=s" ++ size) ++ ?t)%string
      with (String "=" (String "s" (size ++ t))).
    rewrite sizeMarkerAt_cons. cbn. by rewrite andb_false_r.
  - rewrite sizeMarkerAt_cons in *.
    destruct (Ascii.eqb c "=" && Ascii.eqb c2 "s"); [|done]. cbn in *.
    by apply replaceSize_first.
Qed.

(** X20. Rewriting the size of a thumbnail link that has been rewritten before
    gives the same link as rewriting the original: the last size asked for
    is the one the link carries. In particular the large source and the
    strip thumbnail can be derived from a grid source. *)
Theorem replaceSize_last_size_wins (first last link : string) :
  first ≠ EmptyString → allDigits first = true →
  last ≠ EmptyString → allDigits last = true →
  replaceSize ("=s" ++ last) (replaceSize ("=s" ++ first) link)
  = replaceSize ("=s" ++ last) link.
Proof.
  intros Hfirst Hdigits Hlast Hdigits'.
  induction link as [|c link IH]; [done|].
  rewrite !replaceSize_cons.
  destruct (sizeMarkerAt (String c link)) eqn:Hmarker.
  - change (("=s" ++ first) ++ ?t)%string with ("=s" ++ first ++ t)%string.
    rewrite replaceSize_marker by done.
    by rewrite skipDigits_fixed by apply afterSizeMarker_first.
  - rewrite replaceSize_cons, replaceSize_keeps_no_marker by done.
    by rewrite IH.
Qed.

(** X21. A link made of a part without [=], a size marker and a tail that does
    not start with a digit has exactly its size replaced. *)
Theorem replaceSize_sets_size (base old new tail : string) :
  hasChar "=" base = false →
  old ≠ EmptyString → allDigits old = true →
  firstIsDigit tail = false →
  replaceSize ("=s" ++ new) (base ++ "=s" ++ old ++ tail)
  = (base ++ "=s" ++ new ++ tail)%string.
Proof.
  intros Hbase Hold Hdigits Htail.
  induction base as [|c base IH].
  - change (EmptyString ++ ?t)%string with t.
    rewrite replaceSize_marker by done.
    by rewrite skipDigits_fixed by done.
  - cbn [hasChar] in Hbase. apply orb_false_iff in Hbase as [Hc Hbase].
    change (String c base ++ ?t)%string with (String c (base ++ t)).
    rewrite replaceSize_cons.
    destruct (sizeMarkerAt (String c (base ++ "=s" ++ old ++ tail))) eqn:Hm.
    + apply sizeMarkerAt_head in Hm. subst c. by rewrite Ascii.eqb_refl in Hc.
    + by rewrite IH.
Qed.

End ThumbnailSizes.

(** * Creator view *)

Section CreatorLinks.

Import CreatorView.

Lemma matchFolderId_cons c rest :
  matchFolderId (String c rest)
  = if String.prefix "folders/" (String c rest)
    then match takeIdChars (dropChars 8 (String c rest)) with
         | EmptyString => matchFolderId rest
         | String c' id => Some (String c' id)
         end
    else matchFolderId rest.
Proof. reflexivity. Qed.

Lemma takeIdChars_split s :
  ∃ after,
    s = (takeIdChars s ++ after)%string
    ∧ allIdChars (takeIdChars s) = true
    ∧ firstIsIdChar after = false.
Proof.
  induction s as [|c s (after & Hs & Hall & Hafter)].
  - by exists EmptyString.
  - cbn [takeIdChars]. destruct (isIdChar c) eqn:Hc.
    + exists after. split; [|split; [|done]].
      * change (String c (takeIdChars s) ++ after)%string
          with (String c (takeIdChars s ++ after)).
        by rewrite <- Hs.
      * cbn [allIdChars]. by rewrite Hc, Hall.
    + exists (String c s). split; [done|]. split; [done|]. exact Hc.
Qed.

Lemma takeIdChars_app id after :
  allIdChars id = true → firstIsIdChar after = false →
  takeIdChars (id ++ after) = id.
Proof.
  intros Hid Hafter. induction id as [|c id IH].
  - destruct after as [|c after]; [done|].
    cbn [firstIsIdChar] in Hafter.
    change (EmptyString ++ String c after)%string with (String c after).
    cbn [takeIdChars]. by rewrite Hafter.
  - cbn [allIdChars] in Hid. apply andb_true_iff in Hid as [Hc Hid].
    change (String c id ++ after)%string with (String c (id ++ after)).
    cbn [takeIdChars]. by rewrite Hc, IH.
Qed.

Lemma matchFolderId_shape link id :
  matchFolderId link = Some id →
  id ≠ EmptyString
  ∧ allIdChars id = true
  ∧ ∃ before after,
      link = (before ++ "folders/" ++ id ++ after)%string
      ∧ firstIsIdChar after = false.
Proof.
  induction link as [|c link IH]; [done|].
  rewrite matchFolderId_cons.
  assert (matchFolderId link = Some id →
          id ≠ EmptyString ∧ allIdChars id = true
          ∧ ∃ before after,
              String c link = (before ++ "folders/" ++ id ++ after)%string
              ∧ firstIsIdChar after = false) as Hlater.
  { intros Hrest. destruct (IH Hrest) as (Hne & Hall & before & after & -> & Hafter).
    split; [done|]. split; [done|]. by exists (String c before), after. }
  destruct (String.prefix "folders/" (String c link)) eqn:Hprefix; [|done].
  apply prefix_app in Hprefix as [rest Hrest]. rewrite Hrest.
  change (dropChars 8 ("folders/" ++ rest)) with rest.
  destruct (takeIdChars_split rest) as (after & Hsplit & Hall & Hafter).
  destruct (takeIdChars rest) as [|c' id'] eqn:Htake.
  - rewrite <- Hrest. exact Hlater.
  - intros [= <-]. split; [done|]. split; [done|].
    exists EmptyString, after. split; [|done].
    change (EmptyString ++ ?t)%string with t. by rewrite <- Hsplit.
Qed.

Lemma matchFolderId_finds before id after :
  hasChar "f" before = false →
  id ≠ EmptyString → allIdChars id = true →
  firstIsIdChar after = false →
  matchFolderId (before ++ "folders/" ++ id ++ after) = Some id.
Proof.
  intros Hbefore Hne Hall Hafter. induction before as [|c before IH].
  - change (EmptyString ++ ?t)%string with t.
    change ("folders/" ++ id ++ after)%string
      with (String "f" ("olders/" ++ id ++ after)).
    rewrite matchFolderId_cons.
    change (String "f" ("olders/" ++ id ++ after))
      with ("folders/" ++ id ++ after)%string.
    assert (String.prefix "folders/" ("folders/" ++ id ++ after) = true) as ->
      by (apply prefix_app; eauto).
    change (dropChars 8 ("folders/" ++ id ++ after)) with (id ++ after)%string.
    rewrite takeIdChars_app by done. by destruct id.
  - cbn [hasChar] in Hbefore. apply orb_false_iff in Hbefore as [Hc Hbefore].
    change (String c before ++ ?t)%string with (String c (before ++ t)).
    rewrite matchFolderId_cons.
    assert (String.prefix "folders/" (String c (before ++ "folders/" ++ id ++ after))
            = false) as ->.
    { destruct (String.prefix _ _) eqn:Hprefix; [|done].
      apply prefix_app in Hprefix as [rest Hrest].
      change ("folders/" ++ rest)%string
        with (String "f" ("olders/" ++ rest)) in Hrest.
      injection Hrest as -> _. by rewrite Ascii.eqb_refl in Hc. }
    by apply IH.
Qed.

(** X22. Whenever [handleGenerateLink] produces a gallery link, its hash is
    [/id/name] with [name] the encoded client name and [id] a non-empty
    run of letters, digits, [_] and [-] that follows [folders/] in the
    pasted link and is not continued by such a character. *)
Theorem handleGenerateLink_hash_shape (trim encodeURIComponent : string → string)
    (clientName folderLink hash : string) :
  handleGenerateLink trim encodeURIComponent clientName folderLink
  = GalleryLink hash →
  ∃ id before after,
    hash = ("/" ++ id ++ "/" ++ encodeURIComponent clientName)%string
    ∧ id ≠ EmptyString ∧ allIdChars id = true
    ∧ folderLink = (before ++ "folders/" ++ id ++ after)%string
    ∧ firstIsIdChar after = false.
Proof.
  unfold handleGenerateLink. destruct (_ || _); [done|].
  destruct (matchFolderId folderLink) as [id|] eqn:Hmatch; [|done].
  destruct (truthy (Some id)); [|done]. intros [= <-].
  apply matchFolderId_shape in Hmatch as (Hne & Hall & before & after & Hlink & Hafter).
  by exists id, before, after.
Qed.

(** X23. With both fields filled in, a pasted link whose part before
    [folders/] has no letter [f] yields the gallery link for the folder id
    that follows, whatever comes after the id. *)
Theorem handleGenerateLink_reads_folder_id (trim encodeURIComponent : string → string)
    (clientName before id after : string) :
  trim clientName ≠ EmptyString →
  trim (before ++ "folders/" ++ id ++ after)%string ≠ EmptyString →
  hasChar "f" before = false →
  id ≠ EmptyString → allIdChars id = true →
  firstIsIdChar after = false →
  handleGenerateLink trim encodeURIComponent clientName
    (before ++ "folders/" ++ id ++ after)
  = GalleryLink ("/" ++ id ++ "/" ++ encodeURIComponent clientName).
Proof.
  intros Hname Hlink Hbefore Hne Hall Hafter. unfold handleGenerateLink.
  rewrite matchFolderId_finds by done.
  destruct (trim clientName); [done|].
  destruct (trim _); [done|]. cbn. by destruct id.
Qed.

End CreatorLinks.

(** * Service worker *)

Section Caching.

Import ServiceWorker.

Lemma cacheNamed_cachePut_same name key r caches :
  cacheNamed name (cachePut name key r caches)
  = Some (<[key := r]> (default ∅ (cacheNamed name caches))).
Proof.
  induction caches as [|[n cache] caches IH]; cbn.
  - by rewrite String.eqb_refl.
  - destruct (String.eqb n name) eqn:Hn; cbn; by rewrite Hn.
Qed.

Lemma cacheNamed_cachePut_other name other key r caches :
  other ≠ name →
  cacheNamed other (cachePut name key r caches) = cacheNamed other caches.
Proof.
  intros Hne. induction caches as [|[n cache] caches IH]; cbn.
  - destruct (String.eqb_spec name other); [congruence | done].
  - destruct (String.eqb_spec n name) as [->|Hn]; cbn.
    + destruct (String.eqb_spec name other); [congruence | done].
    + by rewrite IH.
Qed.

Lemma cachesMatch_cachePut name request r caches :
  method request = "GET" →
  cachesMatch request caches = None →
  cachesMatch request (cachePut name (url request) r caches) = Some r.
Proof.
  intros Hget. induction caches as [|[n cache] caches IH]; cbn; rewrite Hget; cbn.
  - intros _. by rewrite lookup_singleton_eq.
  - destruct (cache !! url request) eqn:Hcache; [done|]. intros Hrest.
    destruct (String.eqb n name); cbn; rewrite Hget; cbn.
    + by rewrite lookup_insert_eq.
    + rewrite Hcache. by apply IH.
Qed.

(** X24. The network is left alone exactly when the request is not for a
    [googleapis.com] host and some cache holds a response for it, which is
    then the response given; in every other case the one request is sent
    on. *)
Theorem onFetch_skips_network_iff_cached network request caches :
  (sent (onFetch network request caches) = []
   ↔ includes "googleapis.com" (hostname request) = false
     ∧ is_Some (cachesMatch request caches))
  ∧ (sent (onFetch network request caches) = []
     → response (onFetch network request caches) = cachesMatch request caches
       ∧ storage (onFetch network request caches) = caches)
  ∧ (sent (onFetch network request caches) ≠ []
     → sent (onFetch network request caches) = [request]
       ∧ response (onFetch network request caches) = network request).
Proof.
  unfold onFetch.
  destruct (includes "googleapis.com" (hostname request)); cbn.
  { split; [split; [done | by intros [[=] _]]|]. by split. }
  destruct (cachesMatch request caches) as [cached|]; cbn.
  { split; [split; [by eauto | done]|]. by split. }
  destruct (network request) as [networkResponse|]; cbn.
  - destruct (_ && _); cbn;
      (split; [split; [done | by intros [_ [? [=]]]]|]); by split.
  - split; [split; [done | by intros [_ [? [=]]]]|]. by split.
Qed.

(** X25. A page fetched once with status 200 is there when the network is not:
    after a [GET] for a host other than [googleapis.com] has been answered
    with status 200, the same request is served the same response from the
    cache, whatever the network does, without the network being asked. *)
Theorem onFetch_serves_again_offline network request caches r :
  includes "googleapis.com" (hostname request) = false →
  method request = "GET" →
  network request = Some r →
  status r = 200 →
  let first := onFetch network request caches in
  ∃ served,
    response first = Some served
    ∧ ∀ network',
        onFetch network' request (storage first)
        = {| response := Some served; storage := storage first; sent := [] |}.
Proof.
  intros Hhost Hget Hnet Hok first. subst first. unfold onFetch.
  rewrite Hhost, Hnet, Hget, Hok. cbn.
  destruct (cachesMatch request caches) as [cached|] eqn:Hmatch; cbn.
  - exists cached. split; [done|]. intros network'. by rewrite Hmatch.
  - exists r. split; [done|]. intros network'.
    by rewrite cachesMatch_cachePut.
Qed.

Lemma onFetch_storage network request caches :
  storage (onFetch network request caches) = caches
  ∨ ∃ r, network request = Some r ∧ status r = 200
         ∧ storage (onFetch network request caches)
           = cachePut DYNAMIC_CACHE_NAME (url request) r caches.
Proof.
  unfold onFetch. destruct (includes _ _); [by left|].
  destruct (cachesMatch request caches); [by left|].
  destruct (network request) as [r|]; [|by left].
  destruct (String.eqb _ _); [|by left]. cbn.
  destruct (Z.eqb_spec (status r) 200) as [Hok|]; [|by left].
  right. by exists r.
Qed.

(** X26. Handling [fetch] events writes to the dynamic cache only, and only
    responses of status 200: over any run of events every other cache,
    the app shell's included, is as it was, and a dynamic cache that held
    only status-200 responses still does. *)
Theorem runFetches_only_fills_dynamic events caches :
  (∀ name, name ≠ DYNAMIC_CACHE_NAME →
           cacheNamed name (runFetches events caches) = cacheNamed name caches)
  ∧ (dynamicHoldsOk caches → dynamicHoldsOk (runFetches events caches)).
Proof.
  revert caches. induction events as [|[network request] events IH];
    intros caches; [done|].
  change (runFetches ((network, request) :: events) caches)
    with (runFetches events (storage (onFetch network request caches))).
  destruct (IH (storage (onFetch network request caches))) as [IHother IHok].
  destruct (onFetch_storage network request caches)
    as [Heq|(r & Hnet & Hok & Heq)]; rewrite Heq in *.
  - by split.
  - split.
    + intros name Hne. rewrite IHother by done.
      by apply cacheNamed_cachePut_other.
    + intros Hcaches. apply IHok. intros cache key r'.
      rewrite cacheNamed_cachePut_same. intros [= <-].
      rewrite lookup_insert. case_decide; [by intros [= <-]|].
      destruct (cacheNamed DYNAMIC_CACHE_NAME caches) as [old|] eqn:Hold; cbn.
      * by apply Hcaches.
      * by rewrite lookup_empty.
Qed.

Lemma cacheNamed_onActivate name caches :
  cacheNamed name (onActivate caches)
  = if isStale name then None else cacheNamed name caches.
Proof.
  unfold onActivate. induction caches as [|[n cache] caches IH]; cbn.
  - by destruct (isStale name).
  - destruct (isStale n) eqn:Hn; cbn.
    + rewrite IH.
      destruct (String.eqb_spec n name) as [->|]; [by rewrite Hn | done].
    + destruct (String.eqb_spec n name) as [->|]; [by rewrite Hn | exact IH].
Qed.

(** X27. Activation deletes the caches whose name starts with [zelect-] other
    than the two current ones, and nothing else: the app-shell cache, the
    dynamic cache and every cache of another name keep their content. *)
Theorem onActivate_keeps_current_caches caches :
  cacheNamed CACHE_NAME (onActivate caches) = cacheNamed CACHE_NAME caches
  ∧ cacheNamed DYNAMIC_CACHE_NAME (onActivate caches)
    = cacheNamed DYNAMIC_CACHE_NAME caches
  ∧ (∀ name, startsWith "zelect-" name = false →
             cacheNamed name (onActivate caches) = cacheNamed name caches)
  ∧ (∀ name, startsWith "zelect-" name = true →
             name ≠ CACHE_NAME → name ≠ DYNAMIC_CACHE_NAME →
             cacheNamed name (onActivate caches) = None).
Proof.
  split; [|split; [|split]].
  - by rewrite cacheNamed_onActivate.
  - by rewrite cacheNamed_onActivate.
  - intros name Hother. rewrite cacheNamed_onActivate. unfold isStale.
    by rewrite Hother.
  - intros name Hzelect Hshell Hdynamic. rewrite cacheNamed_onActivate.
    unfold isStale. rewrite Hzelect.
    apply String.eqb_neq in Hshell as ->. by apply String.eqb_neq in Hdynamic as ->.
Qed.

End Caching.

(** * Toasts *)

Section Toasts.

Import App.

Lemma timers_timeout (s : State) : timers (timeout s) = pred (timers s).
Proof. unfold timeout. destruct (timers s) eqn:Htimers; [by rewrite Htimers | done]. Qed.

Lemma timers_after (k : nat) (s : State) :
  timers (Nat.iter k timeout s) = (timers s - k)%nat.
Proof.
  induction k as [|k IH]; [cbn; lia|].
  rewrite Nat.iter_succ, timers_timeout, IH. lia.
Qed.

(** X28. Whatever toasts are shown and whichever timers have run out, a visible
    toast has a timer pending, and once the pending timers have all run
    out no toast is visible. *)
Theorem toast_is_always_dismissed (events : list Event) :
  let s := foldl handle initial events in
  (show s = true → (0 < timers s)%nat)
  ∧ show (Nat.iter (timers s) timeout s) = false.
Proof.
  intros s.
  assert (show s = true → (0 < timers s)%nat) as Hpending.
  { subst s.
    assert (∀ s0, (show s0 = true → (0 < timers s0)%nat) →
                  show (foldl handle s0 events) = true →
                  (0 < timers (foldl handle s0 events))%nat) as Hrun.
    { induction events as [|e events IH]; intros s0 Hs0; [done|].
      cbn [foldl]. apply IH. destruct e as [text|]; cbn [handle].
      - intros _. cbn. lia.
      - unfold timeout. destruct (timers s0) eqn:Htimers; [|by cbn].
        intros Hshow. specialize (Hs0 Hshow). lia. }
    apply Hrun. by cbn. }
  split; [done|].
  destruct (timers s) as [|n] eqn:Htimers.
  - cbn. destruct (show s); [|done]. specialize (Hpending eq_refl). lia.
  - rewrite Nat.iter_succ. unfold timeout.
    rewrite timers_after, Htimers.
    replace (S n - n)%nat with 1%nat by lia. done.
Qed.

End Toasts.

(** ** Further instances *)

Lemma concurrent_toggles_both_applied_witness :
  is_Some (db configured)
  ∧ (1 < 5)%nat
  ∧ file_id photoA ≠ file_id photoB
  ∧ ("idA" ∈ favoriteIds
       (docs (snd (toggleFavoriteInFirestore 5 configured "folder1" photoA
                     [Some (toggleUpdate photoB (docs emptyWorld !! "folder1"))]
                     emptyWorld)) !! "folder1")
     ↔ ("idA" = file_id photoA ∨ "idA" = file_id photoB)
       ∧ "idA" ∉ favoriteIds (docs emptyWorld !! "folder1")
       ∨ "idA" ≠ file_id photoA ∧ "idA" ≠ file_id photoB
         ∧ "idA" ∈ favoriteIds (docs emptyWorld !! "folder1")).
Proof.
  assert (is_Some (db configured)) as Hdb by (by eexists).
  assert (1 < 5)%nat as Hmax by lia.
  assert (file_id photoA ≠ file_id photoB) as Hne by discriminate.
  split; [exact Hdb|]. split; [exact Hmax|]. split; [exact Hne|].
  exact (concurrent_toggles_both_applied 5 configured "folder1" photoA photoB
           emptyWorld Hdb Hmax Hne "idA").
Defined.

Lemma toggles_commute_witness :
  is_Some (db configured)
  ∧ (0 < 5)%nat
  ∧ storedIds
      (docs (snd (toggleFavoriteInFirestore 5 configured "folder1" photoB []
                    (snd (toggleFavoriteInFirestore 5 configured "folder1"
                            photoA [] syncedWorld))))) "folder1"
    = storedIds
        (docs (snd (toggleFavoriteInFirestore 5 configured "folder1" photoA []
                      (snd (toggleFavoriteInFirestore 5 configured "folder1"
                              photoB [] syncedWorld))))) "folder1".
Proof.
  assert (is_Some (db configured)) as Hdb by (by eexists).
  assert (0 < 5)%nat as Hmax by lia.
  split; [exact Hdb|]. split; [exact Hmax|].
  exact (proj1 (toggles_commute 5 configured "folder1" photoA photoB syncedWorld
                  Hdb Hmax)).
Defined.

Lemma newFavorites_length_witness :
  NoDup (fav_id <$> [mkFavorite "idC" "c.mp4"; mkFavorite "idA" "a.jpg"])
  ∧ S (length (newFavorites
                 [mkFavorite "idC" "c.mp4"; mkFavorite "idA" "a.jpg"] photoA))
    = length [mkFavorite "idC" "c.mp4"; mkFavorite "idA" "a.jpg"].
Proof.
  assert (NoDup (fav_id <$> [mkFavorite "idC" "c.mp4"; mkFavorite "idA" "a.jpg"]))
    as Hnd.
  { cbn. repeat (apply NoDup_cons; split; [by compute_done|]). apply NoDup_nil_2. }
  assert (file_id photoA
          ∈ (fav_id <$> [mkFavorite "idC" "c.mp4"; mkFavorite "idA" "a.jpg"]))
    as Hin by (by compute_done).
  split; [exact Hnd|].
  exact (proj1 (newFavorites_length _ photoA Hnd) Hin).
Defined.

Lemma toggle_then_snapshot_flips_heart_witness :
  isFirebaseConfigured configured = true
  ∧ is_Some (db configured)
  ∧ (0 < 5)%nat
  ∧ GalleryView.folderId picked = Some "folder1"
  ∧ "folder1" ≠ EmptyString
  ∧ ("idB" ∈ file_id <$> GalleryView.allItems picked)
  ∧ GalleryView.isFavorited
      (GalleryView.favorites
         (GalleryView.snapshotDelivered "folder1"
            (snd (GalleryView.toggleFavorite 5 configured picked "idB" []
                    syncedWorld))
            (snd (fst (GalleryView.toggleFavorite 5 configured picked "idB" []
                         syncedWorld)))))
      "idB"
    = negb (GalleryView.isFavorited
              (snapshotFavorites (docs syncedWorld !! "folder1")) "idB").
Proof.
  assert (isFirebaseConfigured configured = true) as Hflag by reflexivity.
  assert (is_Some (db configured)) as Hdb by (by eexists).
  assert (0 < 5)%nat as Hmax by lia.
  assert (GalleryView.folderId picked = Some "folder1") as Hfolder by reflexivity.
  assert ("folder1" ≠ EmptyString) as Hne by discriminate.
  assert ("idB" ∈ (file_id <$> GalleryView.allItems picked)) as Hin
    by (by compute_done).
  do 6 (split; [assumption|]).
  exact (proj1 (toggle_then_snapshot_flips_heart 5 configured picked "folder1"
                  "idB" syncedWorld Hflag Hdb Hmax Hfolder Hne Hin)).
Defined.

Lemma toggleFavorite_changes_only_listed_witness :
  snd (GalleryView.toggleFavorite 5 configured picked "idB" [] emptyWorld)
  ≠ emptyWorld
  ∧ ∃ folder file,
      GalleryView.folderId picked = Some folder
      ∧ file ∈ GalleryView.allItems picked ∧ file_id file = "idB"
      ∧ snd (GalleryView.toggleFavorite 5 configured picked "idB" [] emptyWorld)
        = snd (toggleFavoriteInFirestore 5 configured folder file [] emptyWorld).
Proof.
  assert (snd (GalleryView.toggleFavorite 5 configured picked "idB" [] emptyWorld)
          ≠ emptyWorld) as Hchanged.
  { intros Heq. apply (f_equal ops) in Heq. vm_compute in Heq. discriminate Heq. }
  split; [exact Hchanged|].
  exact (toggleFavorite_changes_only_listed 5 configured picked "idB" []
           emptyWorld Hchanged).
Defined.

Lemma getFiles_endless_tokens_witness :
  DriveService.apiKeyMissing "AIzaKey" = false
  ∧ (∀ param, ∃ page,
       endless "folder1" param = DriveService.Ok page
       ∧ truthy (DriveService.nextPageToken page) = true)
  ∧ DriveService.getFiles "AIzaKey" endless 1000 "folder1" = None.
Proof.
  assert (DriveService.apiKeyMissing "AIzaKey" = false) as Hkey by reflexivity.
  assert (∀ param, ∃ page,
            endless "folder1" param = DriveService.Ok page
            ∧ truthy (DriveService.nextPageToken page) = true) as Hmore.
  { intros param. eexists. split; reflexivity. }
  split; [exact Hkey|]. split; [exact Hmore|].
  exact (getFiles_endless_tokens endless "folder1" "AIzaKey" Hkey Hmore 1000%nat).
Defined.

Lemma fetchGalleryData_all_or_nothing_witness :
  DriveService.apiKeyMissing "AIzaKey" = false
  ∧ ∃ s',
      GalleryView.fetchGalleryData "AIzaKey" secondRefused 5 loadingGallery
      = Some (s', None :: (DriveService.nextPageToken <$> [firstPage]))
      ∧ GalleryView.allItems s' = GalleryView.allItems loadingGallery
      ∧ GalleryView.error s' = Some "Rate limit exceeded"
      ∧ GalleryView.isLoading s' = false.
Proof.
  assert (DriveService.apiKeyMissing "AIzaKey" = false) as Hkey by reflexivity.
  split; [exact Hkey|].
  refine (proj1 (proj2 (fetchGalleryData_all_or_nothing "AIzaKey" secondRefused
                          5 loadingGallery Hkey))
            "folder1" [firstPage] "Rate limit exceeded" eq_refl _ _ _).
  - discriminate.
  - apply fails_later; [reflexivity | reflexivity |]. by apply fails_now.
  - cbn. lia.
Defined.

Lemma page_sizes_witness :
  1 ≤ GalleryView.currentPage lastPage
  ∧ Z.of_nat (length (GalleryView.visibleItems lastPage))
    = Z.of_nat (length (GalleryView.filteredItems lastPage))
      - 50 * (GalleryView.totalPages lastPage - 1).
Proof.
  assert (1 ≤ GalleryView.currentPage lastPage) as Hpage by (cbn; lia).
  split; [exact Hpage|].
  exact (proj1 (proj1 (proj2 (page_sizes lastPage Hpage)) eq_refl)).
Defined.


Lemma handleOpenDetailView_opens_clicked_witness :
  1 ≤ GalleryView.currentPage picked
  ∧ NoDup (file_id <$> GalleryView.filteredItems picked)
  ∧ GalleryView.visibleItems picked !! 1%nat = Some clipC
  ∧ GalleryView.handleOpenDetailView 1 picked
    = Some (GalleryView.setDetailViewIndex
              (Some ((GalleryView.currentPage picked - 1)
                     * GalleryView.ITEMS_PER_PAGE + Z.of_nat 1))
              picked).
Proof.
  assert (1 ≤ GalleryView.currentPage picked) as Hpage by (cbn; lia).
  assert (NoDup (file_id <$> GalleryView.filteredItems picked)) as Hnd.
  { cbn. repeat (apply NoDup_cons; split; [by compute_done|]). apply NoDup_nil_2. }
  assert (GalleryView.visibleItems picked !! 1%nat = Some clipC) as Hvisible
    by reflexivity.
  split; [exact Hpage|]. split; [exact Hnd|]. split; [exact Hvisible|].
  exact (proj1 (handleOpenDetailView_opens_clicked picked 1 clipC Hpage Hnd
                  Hvisible)).
Defined.

Lemma detail_index_stays_in_range_witness :
  GalleryView.isFavoritesView (galleryView viewing) = false
  ∧ 0 ≤ DetailView.currentIndex (detailView viewing)
      < Z.of_nat (length (GalleryView.allItems (galleryView viewing)))
  ∧ is_Some
      (DetailView.currentItem
         (GalleryView.filteredItems
            (galleryView
               (foldl (sessionStep 5 configured) viewing
                  [InViewer (DetailView.KeyDown " ") [];
                   FavoritesSnapshot [mkFavorite "idA" "a.jpg"];
                   InViewer (DetailView.KeyDown "ArrowRight") [];
                   InViewer (DetailView.ClickThumbnail 1) [];
                   InViewer DetailView.ClickFavorite []])))
         (detailView
            (foldl (sessionStep 5 configured) viewing
               [InViewer (DetailView.KeyDown " ") [];
                FavoritesSnapshot [mkFavorite "idA" "a.jpg"];
                InViewer (DetailView.KeyDown "ArrowRight") [];
                InViewer (DetailView.ClickThumbnail 1) [];
                InViewer DetailView.ClickFavorite []]))).
Proof.
  assert (GalleryView.isFavoritesView (galleryView viewing) = false) as Hview
    by reflexivity.
  assert (0 ≤ DetailView.currentIndex (detailView viewing)
            < Z.of_nat (length (GalleryView.allItems (galleryView viewing))))
    as Hrange by (cbn; lia).
  split; [exact Hview|]. split; [exact Hrange|].
  exact (proj2 (proj2 (detail_index_stays_in_range 5 configured
                         [InViewer (DetailView.KeyDown " ") [];
                          FavoritesSnapshot [mkFavorite "idA" "a.jpg"];
                          InViewer (DetailView.KeyDown "ArrowRight") [];
                          InViewer (DetailView.ClickThumbnail 1) [];
                          InViewer DetailView.ClickFavorite []]
                         viewing Hview Hrange))).
Defined.

Lemma preload_targets_are_neighbours_witness :
  0 ≤ 2 < 3
  ∧ DetailView.nextIndex 3 2 = Some (DetailView.nextUpdater 3 2)
  ∧ DetailView.prevIndex 3 2 = Some (DetailView.prevUpdater 3 2).
Proof.
  assert (0 ≤ 2 < 3) as Hrange by lia.
  split; [exact Hrange|].
  exact (preload_targets_are_neighbours 3 2 Hrange).
Defined.

Lemma next_prev_round_trip_witness :
  0 ≤ DetailView.currentIndex lastIndex < Z.of_nat (length [photoA; photoB; clipC])
  ∧ DetailView.currentIndex
      (DetailView.handlePrev [photoA; photoB; clipC]
         (DetailView.handleNext [photoA; photoB; clipC] lastIndex))
    = DetailView.currentIndex lastIndex.
Proof.
  assert (0 ≤ DetailView.currentIndex lastIndex
          < Z.of_nat (length [photoA; photoB; clipC])) as Hrange by (cbn; lia).
  split; [exact Hrange|].
  exact (proj1 (next_prev_round_trip [photoA; photoB; clipC] lastIndex Hrange)).
Defined.

Lemma unfavoriting_current_shows_successor_witness :
  isFirebaseConfigured configured = true
  ∧ is_Some (db configured)
  ∧ (0 < 5)%nat
  ∧ GalleryView.folderId picked = Some "folder1"
  ∧ "folder1" ≠ EmptyString
  ∧ GalleryView.isFavoritesView picked = true
  ∧ NoDup (file_id <$> GalleryView.allItems picked)
  ∧ snapshotFavorites (docs syncedWorld !! "folder1") = GalleryView.favorites picked
  ∧ GalleryView.filteredItems picked !! 0%nat = Some photoA
  ∧ DetailView.currentIndex firstIndex = Z.of_nat 0
  ∧ DetailView.currentItem
      (GalleryView.filteredItems
         (GalleryView.snapshotDelivered "folder1"
            (snd (GalleryView.toggleFavorite 5 configured picked
                    (file_id photoA) [] syncedWorld))
            (snd (fst (GalleryView.toggleFavorite 5 configured picked
                         (file_id photoA) [] syncedWorld)))))
      firstIndex
    = GalleryView.filteredItems picked !! 1%nat.
Proof.
  assert (isFirebaseConfigured configured = true) as Hflag by reflexivity.
  assert (is_Some (db configured)) as Hdb by (by eexists).
  assert (0 < 5)%nat as Hmax by lia.
  assert (GalleryView.folderId picked = Some "folder1") as Hfolder by reflexivity.
  assert ("folder1" ≠ EmptyString) as Hne by discriminate.
  assert (GalleryView.isFavoritesView picked = true) as Hview by reflexivity.
  assert (NoDup (file_id <$> GalleryView.allItems picked)) as Hnd.
  { cbn. repeat (apply NoDup_cons; split; [by compute_done|]). apply NoDup_nil_2. }
  assert (snapshotFavorites (docs syncedWorld !! "folder1")
          = GalleryView.favorites picked) as Hsync by reflexivity.
  assert (GalleryView.filteredItems picked !! 0%nat = Some photoA) as Hitem
    by reflexivity.
  assert (DetailView.currentIndex firstIndex = Z.of_nat 0) as Hindex
    by reflexivity.
  do 10 (split; [assumption|]).
  exact (proj2 (proj2 (unfavoriting_current_shows_successor 5 configured picked
                         "folder1" syncedWorld 0 photoA firstIndex
                         Hflag Hdb Hmax Hfolder Hne Hview Hnd Hsync Hitem Hindex))).
Defined.

Lemma replaceSize_last_size_wins_witness :
  "600" ≠ EmptyString ∧ allDigits "600" = true
  ∧ "2048" ≠ EmptyString ∧ allDigits "2048" = true
  ∧ replaceSize "=s2048" (GalleryView.gridSrc photoA) = DetailView.largeSrc photoA.
Proof.
  assert ("600" ≠ EmptyString) as Hfirst by discriminate.
  assert (allDigits "600" = true) as Hdigits by reflexivity.
  assert ("2048" ≠ EmptyString) as Hlast by discriminate.
  assert (allDigits "2048" = true) as Hdigits' by reflexivity.
  do 4 (split; [assumption|]).
  exact (replaceSize_last_size_wins "600" "2048" (thumbnailLink photoA)
           Hfirst Hdigits Hlast Hdigits').
Defined.

Lemma replaceSize_sets_size_witness :
  hasChar "=" "https://lh3.example/a" = false
  ∧ "220" ≠ EmptyString ∧ allDigits "220" = true
  ∧ firstIsDigit "-c" = false
  ∧ replaceSize "=s600" "https://lh3.example/a=s220-c"
    = "https://lh3.example/a=s600-c".
Proof.
  assert (hasChar "=" "https://lh3.example/a" = false) as Hbase by reflexivity.
  assert ("220" ≠ EmptyString) as Hold by discriminate.
  assert (allDigits "220" = true) as Hdigits by reflexivity.
  assert (firstIsDigit "-c" = false) as Htail by reflexivity.
  do 4 (split; [assumption|]).
  exact (replaceSize_sets_size "https://lh3.example/a" "220" "600" "-c"
           Hbase Hold Hdigits Htail).
Defined.

Lemma handleGenerateLink_hash_shape_witness :
  CreatorView.handleGenerateLink (fun s => s) (fun s => s) "Ada" pastedLink
  = CreatorView.GalleryLink "/1AbC_d-9/Ada"
  ∧ ∃ id before after,
      "/1AbC_d-9/Ada" = ("/" ++ id ++ "/" ++ "Ada")%string
      ∧ id ≠ EmptyString ∧ allIdChars id = true
      ∧ pastedLink = (before ++ "folders/" ++ id ++ after)%string
      ∧ firstIsIdChar after = false.
Proof.
  assert (CreatorView.handleGenerateLink (fun s => s) (fun s => s) "Ada" pastedLink
          = CreatorView.GalleryLink "/1AbC_d-9/Ada") as Hlink by reflexivity.
  split; [exact Hlink|].
  exact (handleGenerateLink_hash_shape (fun s => s) (fun s => s) "Ada" pastedLink
           "/1AbC_d-9/Ada" Hlink).
Defined.

Lemma handleGenerateLink_reads_folder_id_witness :
  "Ada" ≠ EmptyString
  ∧ ("https://drive.google.com/drive/" ++ "folders/" ++ "1AbC_d-9"
       ++ "?usp=sharing")%string ≠ EmptyString
  ∧ hasChar "f" "https://drive.google.com/drive/" = false
  ∧ "1AbC_d-9" ≠ EmptyString ∧ allIdChars "1AbC_d-9" = true
  ∧ firstIsIdChar "?usp=sharing" = false
  ∧ CreatorView.handleGenerateLink (fun s => s) (fun s => s) "Ada"
      ("https://drive.google.com/drive/" ++ "folders/" ++ "1AbC_d-9"
         ++ "?usp=sharing")
    = CreatorView.GalleryLink ("/" ++ "1AbC_d-9" ++ "/" ++ "Ada").
Proof.
  assert ("Ada" ≠ EmptyString) as Hname by discriminate.
  assert (("https://drive.google.com/drive/" ++ "folders/" ++ "1AbC_d-9"
             ++ "?usp=sharing")%string ≠ EmptyString) as Hlink by discriminate.
  assert (hasChar "f" "https://drive.google.com/drive/" = false) as Hbefore
    by reflexivity.
  assert ("1AbC_d-9" ≠ EmptyString) as Hne by discriminate.
  assert (allIdChars "1AbC_d-9" = true) as Hall by reflexivity.
  assert (firstIsIdChar "?usp=sharing" = false) as Hafter by reflexivity.
  do 6 (split; [assumption|]).
  exact (handleGenerateLink_reads_folder_id (fun s => s) (fun s => s) "Ada"
           "https://drive.google.com/drive/" "1AbC_d-9" "?usp=sharing"
           Hname Hlink Hbefore Hne Hall Hafter).
Defined.

Lemma onFetch_serves_again_offline_witness :
  includes "googleapis.com" (ServiceWorker.hostname logoRequest) = false
  ∧ ServiceWorker.method logoRequest = "GET"
  ∧ ServiceWorker.status logoResponse = 200
  ∧ ∃ served,
      ServiceWorker.response
        (ServiceWorker.onFetch (fun _ => Some logoResponse) logoRequest [])
      = Some served
      ∧ ∀ network',
          ServiceWorker.onFetch network' logoRequest
            (ServiceWorker.storage
               (ServiceWorker.onFetch (fun _ => Some logoResponse) logoRequest []))
          = {| ServiceWorker.response := Some served;
               ServiceWorker.storage :=
                 ServiceWorker.storage
                   (ServiceWorker.onFetch (fun _ => Some logoResponse)
                      logoRequest []);
               ServiceWorker.sent := [] |}.
Proof.
  assert (includes "googleapis.com" (ServiceWorker.hostname logoRequest) = false)
    as Hhost by reflexivity.
  assert (ServiceWorker.method logoRequest = "GET") as Hget by reflexivity.
  assert (ServiceWorker.status logoResponse = 200) as Hok by reflexivity.
  do 3 (split; [assumption|]).
  exact (onFetch_serves_again_offline (fun _ => Some logoResponse) logoRequest []
           logoResponse Hhost Hget eq_refl Hok).
Defined.
